(** * Ingredient normalisation and corpus filtering of the Pinoy-dish notebooks

    A shallow embedding of the two notebooks of the repository:
    - the clustering notebook ([preprocess_ingredient], [clean_ingredients],
      the removal of common and of rare ingredients, the recipe-size filter);
    - the association-analysis notebook ([clean_ingredient],
      [break_down_ingredient]).

    Python strings are modelled by [string]; a character is read as a code
    point below 256.  The spaCy pipeline [nlp] and the data files
    (stopwords, thesauri, component map) are not part of the repository
    sources: they are parameters of the development (the classes [Tagger],
    [Lexicon] and [Association.Data]); the constants of the notebook are
    the fields of [Config], with their values in [notebook_config].

    The file has three parts: the Python built-ins and the two regular
    expressions the notebooks use, the notebooks themselves, and the
    properties, which end with one theorem per claim (C1 to C10). *)

From Stdlib Require Import Ascii String List Arith Lia Permutation.
From stdpp Require Import base list gmap sets strings sorting.

Set Warnings "-clear-no-such-hyp".

(** ** Python built-ins used by the notebooks *)

Module Py.

(** [str.isspace] on one character (code points below 256). *)
Definition isspace (c : ascii) : bool :=
  let n := N_of_ascii c in
  (((9 <=? n) && (n <=? 13)) || ((28 <=? n) && (n <=? 32))
   || (n =? 133) || (n =? 160))%N.

(** [str.lower] on one character (code points below 256). *)
Definition lower_char (c : ascii) : ascii :=
  let n := N_of_ascii c in
  if (((65 <=? n) && (n <=? 90))
      || ((192 <=? n) && (n <=? 222) && negb (n =? 215)))%N
  then ascii_of_N (n + 32) else c.

Fixpoint lower (s : string) : string :=
  match s with
  | EmptyString => EmptyString
  | String c r => String (lower_char c) (lower r)
  end.

Fixpoint lstrip (s : string) : string :=
  match s with
  | EmptyString => EmptyString
  | String c r => if isspace c then lstrip r else s
  end.

Definition rstrip (s : string) : string := String.rev (lstrip (String.rev s)).

(** [s.strip()] *)
Definition strip (s : string) : string := rstrip (lstrip s).

(** [s.split()]: maximal runs of non-whitespace characters. [cur] is the
    word being read. *)
Fixpoint split_go (cur : string) (s : string) : list string :=
  match s with
  | EmptyString => match cur with EmptyString => [] | _ => [cur] end
  | String c r =>
      if isspace c
      then match cur with
           | EmptyString => split_go EmptyString r
           | _ => cur :: split_go EmptyString r
           end
      else split_go (cur +:+ String c EmptyString) r
  end.

Definition split (s : string) : list string := split_go EmptyString s.

(** [sep.join(l)] *)
Definition join (sep : string) (l : list string) : string :=
  String.concat sep l.

(** [s.split(sep)] for a non-empty separator: [skip] counts the characters
    of a separator occurrence still to be passed over, [cur] is the segment
    being read. *)
Fixpoint split_sep_go (sep : string) (skip : nat) (cur : string) (s : string)
  : list string :=
  match s with
  | EmptyString => [cur]
  | String c r =>
      match skip with
      | S k => split_sep_go sep k cur r
      | O =>
          if String.prefix sep s
          then cur :: split_sep_go sep (String.length sep - 1) EmptyString r
          else split_sep_go sep 0 (cur +:+ String c EmptyString) r
      end
  end.

Definition split_sep (sep s : string) : list string :=
  split_sep_go sep 0 EmptyString s.

(** [l[0]] on the result of a split, which is never empty. *)
Definition item0 (l : list string) : string := hd EmptyString l.

(** Truth value of a string: [bool(s)]. *)
Definition truthy (s : string) : bool :=
  match s with EmptyString => false | _ => true end.

(** [sorted(l)] on strings: ascending code-point order. *)
Definition sorted (l : list string) : list string := merge_sort String.le l.

(** A JSON value of the thesaurus and component files: a string or a list
    of strings. *)
Inductive value :=
| Str (s : string)
| Lst (l : list string).

(** [d.get(k, default)] *)
Definition get {V} (d : gmap string V) (k : string) (default : V) : V :=
  match d !! k with
  | Some v => v
  | None => default
  end.

(** A string is blank when [s.strip()] is empty: all its characters are
    whitespace. *)
Fixpoint blank (s : string) : bool :=
  match s with
  | EmptyString => true
  | String c r => isspace c && blank r
  end.

End Py.

(** ** The two regular expressions of the notebooks

    A pattern is a sequence of atoms, each a character class under a
    quantifier; matching is greedy with backtracking, as in Python's [re]. *)

Module Re.

Inductive cls :=
| Lit (c : ascii)       (* the character itself *)
| NotLit (c : ascii).   (* [^c] *)

Definition cls_match (k : cls) (x : ascii) : bool :=
  match k with
  | Lit c => Ascii.eqb x c
  | NotLit c => negb (Ascii.eqb x c)
  end.

Inductive atom :=
| One (k : cls)
| Opt (k : cls)     (* k? *)
| Star (k : cls)    (* k* *)
| Plus (k : cls).   (* k+ *)

(** Greedy repetition of class [k] followed by [rest]: the number of
    characters of the longest match. *)
Fixpoint star (k : cls) (rest : string → option nat) (s : string)
  : option nat :=
  match s with
  | EmptyString => rest EmptyString
  | String x r =>
      if cls_match k x
      then match star k rest r with
           | Some n => Some (S n)
           | None => rest s
           end
      else rest s
  end.

(** [match_here p s]: the length of the match of pattern [p] anchored at
    the start of [s], if any. *)
Fixpoint match_here (p : list atom) : string → option nat :=
  match p with
  | [] => λ _, Some 0
  | a :: p' =>
      let rest := match_here p' in
      match a with
      | One k => λ s,
          match s with
          | String x r => if cls_match k x then S <$> rest r else None
          | EmptyString => None
          end
      | Opt k => λ s,
          match s with
          | String x r =>
              if cls_match k x
              then match rest r with
                   | Some n => Some (S n)
                   | None => rest s
                   end
              else rest s
          | EmptyString => rest EmptyString
          end
      | Star k => star k rest
      | Plus k => λ s,
          match s with
          | String x r => if cls_match k x then S <$> star k rest r else None
          | EmptyString => None
          end
      end
  end.

(** [re.sub(p, "", s)]: scanning left to right, every match is deleted;
    [skip] counts the characters of the current match still to delete.  An
    empty match replaced by the empty string changes nothing. *)
Fixpoint sub_go (p : list atom) (skip : nat) (s : string) : string :=
  match s with
  | EmptyString => EmptyString
  | String x r =>
      match skip with
      | S k => sub_go p k r
      | O =>
          match match_here p s with
          | Some (S k) => sub_go p k r
          | _ => String x (sub_go p 0 r)
          end
      end
  end.

Definition sub (p : list atom) (s : string) : string := sub_go p 0 s.

(** [r"\([^)]*\)"] *)
Definition parens_star : list atom :=
  [One (Lit "("); Star (NotLit ")"); One (Lit ")")].

(** [r" ?\([^)]+\)"] *)
Definition space_parens_plus : list atom :=
  [Opt (Lit " "); One (Lit "("); Plus (NotLit ")"); One (Lit ")")].

End Re.

(** ** External collaborators *)

(** The attributes of a spaCy token read by the notebook. *)
Record Token := {
  text : string;
  lemma_ : string;
  pos_ : string;
  is_alpha : bool;
  is_stop : bool
}.

(** The spaCy pipeline [nlp = spacy.load(...)]. *)
Class Tagger := { nlp : string → list Token }.

(** The data files of the clustering notebook:
    [data/culinary_stopwords.txt], [data/word_synonyms.json],
    [data/phrase_synonyms.json]. *)
Class Lexicon := {
  stopwords : list string;
  word_synonyms : gmap string string;
  phrase_synonyms : gmap string Py.value
}.

(** ** The clustering notebook *)

Module Clustering.

Section pipeline.
Context {tagger : Tagger} {lexicon : Lexicon}.

(** [token.pos_ = tag] *)
Definition set_pos (token : Token) (tag : string) : Token :=
  {| text := text token; lemma_ := lemma_ token; pos_ := tag;
     is_alpha := is_alpha token; is_stop := is_stop token |}.

(** One iteration of the loop of [lemmatize_valid_nouns]. *)
Definition lemmatize_step (valid_lemmas : list string) (token : Token)
  : list string :=
  let outliers := ["cauliflower"; "baking"] in
  let token :=
    if bool_decide (text token ∈ outliers)
    then set_pos token "NOUN"  (* Override POS tag for some words *)
    else token in
  if is_alpha token && negb (is_stop token)
     && bool_decide (pos_ token ∈ ["NOUN"; "PROPN"])
  then valid_lemmas ++ [lemma_ token]
  else valid_lemmas.

Definition lemmatize_valid_nouns (ingredient : string) : string :=
  let doc := nlp ingredient in
  let valid_lemmas := fold_left lemmatize_step doc [] in
  Py.join " " valid_lemmas.

Definition filter_stopwords (text : string) : string :=
  let meaningful_terms :=
    fold_left
      (λ meaningful_terms term,
         if bool_decide (term ∉ stopwords)
         then meaningful_terms ++ [term]
         else meaningful_terms)
      (Py.split text) [] in
  Py.join " " meaningful_terms.

Definition handle_word_synonym (ingredient : string) : string :=
  let common_words :=
    fold_left
      (λ common_words word,
         common_words ++ [Py.get word_synonyms word word])
      (Py.split ingredient) [] in
  Py.join " " common_words.

(** The loop state of [remove_duplicates] is the pair [(seen, unique)]. *)
Definition remove_duplicates (text : string) : string :=
  let '(seen, unique) :=
    fold_left
      (λ '((seen, unique) : gset string * list string) ingredient,
         if bool_decide (ingredient ∉ seen)
         then ({[ingredient]} ∪ seen, unique ++ [ingredient])
         else (seen, unique))
      (Py.split text) (∅, []) in
  Py.join " " unique.

Definition handle_phrase_synonym (ingredient : string) : Py.value :=
  Py.get phrase_synonyms ingredient (Py.Str ingredient).

(** [re.sub(r"\([^)]*\)", "", ingredient)] *)
Definition no_parenthesis (ingredient : string) : string :=
  Re.sub Re.parens_star ingredient.

(** The first three lines of [preprocess_ingredient]. *)
Definition formatted (ingredient : string) : string :=
  let no_parenthesis := no_parenthesis ingredient in
  let first_option := Py.item0 (Py.split_sep " or " no_parenthesis) in
  Py.strip (Py.lower first_option).

(** The local [unique] of [preprocess_ingredient]: the string handed to
    the phrase-level lookup. *)
Definition unique_terms (ingredient : string) : string :=
  let lemmatized := lemmatize_valid_nouns (formatted ingredient) in
  let filtered := filter_stopwords lemmatized in
  let word_synonym := handle_word_synonym filtered in
  remove_duplicates word_synonym.

Definition preprocess_ingredient (ingredient : string) : Py.value :=
  let unique := unique_terms ingredient in
  let phrase_synonym := handle_phrase_synonym unique in
  phrase_synonym.

(** One iteration of the loop of [clean_ingredients]: [extend] for a list,
    [append] for a string. *)
Definition collect_step (cleaned_ingredients : list string)
    (ingredient : string) : list string :=
  let cleaned := preprocess_ingredient ingredient in
  match cleaned with
  | Py.Lst l => cleaned_ingredients ++ l
  | Py.Str s => cleaned_ingredients ++ [s]
  end.

(** [clean_ingredients] for a given iteration order [iter] of Python's
    [set], which the language leaves unspecified. *)
Definition clean_ingredients_iter (iter : gset string → list string)
    (ingredients : list string) : list string :=
  let cleaned_ingredients := fold_left collect_step ingredients [] in
  Py.sorted (iter (list_to_set (filter Py.truthy cleaned_ingredients))).

Definition clean_ingredients (ingredients : list string) : list string :=
  clean_ingredients_iter elements ingredients.

End pipeline.

(** *** The corpus-level cells *)

(** A record of the loaded recipes; [ingredients] may be missing. *)
Record Recipe := {
  name : string;
  ingredients : option (list string)
}.

(** A row of the data frame once the column [cleaned_ingredients] is set. *)
Record Row := {
  row_name : string;
  row_ingredients : list string;
  cleaned_ingredients : list string
}.

(** The configuration constants of the notebook. *)
Class Config := {
  ingredients_to_remove : list string;
  MIN_FREQUENCY : nat;
  MIN_INGREDIENT : nat;
  MAX_INGREDIENT : nat
}.

Definition notebook_config : Config := {|
  ingredients_to_remove := ["oil"; "salt"; "onion"; "sugar"; "pepper"; "garlic"];
  MIN_FREQUENCY := 5;
  MIN_INGREDIENT := 4;
  MAX_INGREDIENT := 9
|}.

(** [df.dropna(subset=["ingredients"])] on a frame that has the column,
    which is so as soon as one record carries its ingredients; on a frame
    without the column the call raises KeyError and the cells after it do
    not run. *)
Definition dropna (recipes : list Recipe) : list (string * list string) :=
  omap (λ r, (λ i, (name r, i)) <$> ingredients r) recipes.

(** [df["cleaned_ingredients"] = df["cleaned_ingredients"].apply(f)] *)
Definition apply_cleaned (f : list string → list string) (df : list Row)
  : list Row :=
  map (λ r, {| row_name := row_name r; row_ingredients := row_ingredients r;
               cleaned_ingredients := f (cleaned_ingredients r) |}) df.

(** [series.explode()]: one entry per list element, a missing value for an
    empty list. *)
Definition explode (column : list (list string)) : list (option string) :=
  flat_map (λ l, match l with [] => [None] | _ => Some <$> l end) column.

(** [series.value_counts()]: occurrences of each value, missing values
    dropped. *)
Definition value_counts (entries : list (option string)) : gmap string nat :=
  fold_left
    (λ counts entry,
       match entry with
       | Some i => <[i := S (default 0 (counts !! i))]> counts
       | None => counts
       end)
    entries ∅.

Section corpus.
Context {tagger : Tagger} {lexicon : Lexicon} {config : Config}.

(** [recipe_df["cleaned_ingredients"] =
     recipe_df["ingredients"].progress_apply(clean_ingredients)], after
    [dropna]. *)
Definition recipe_df (recipes : list Recipe) : list Row :=
  map (λ '(n, i), {| row_name := n; row_ingredients := i;
                     cleaned_ingredients := clean_ingredients i |})
      (dropna recipes).

(** The first [remove_rare_ingredients] of the notebook, which removes the
    common ingredients listed in [ingredients_to_remove]. *)
Definition remove_common_ingredients (ingredients : list string)
  : list string :=
  filter (λ i, i ∉ ingredients_to_remove) ingredients.

(** [counts = recipe_df["cleaned_ingredients"].explode().value_counts()] *)
Definition counts (recipe_df : list Row) : gmap string nat :=
  value_counts (explode (cleaned_ingredients <$> recipe_df)).

(** [rare_ingredients = counts[counts <= MIN_FREQUENCY].index] *)
Definition rare_ingredients (recipe_df : list Row) : gset string :=
  dom (filter (λ kv, kv.2 ≤ MIN_FREQUENCY) (counts recipe_df)).

(** The second [remove_rare_ingredients]. *)
Definition remove_rare_ingredients (rare_ingredients : gset string)
    (ingredients : list string) : list string :=
  filter (λ ingredient, ingredient ∉ rare_ingredients) ingredients.

(** [reduced_df] after the removal of the common ingredients. *)
Definition reduced_common (recipe_df : list Row) : list Row :=
  apply_cleaned remove_common_ingredients recipe_df.

(** [reduced_df] after the removal of the rare ingredients; the counts are
    those of [recipe_df]. *)
Definition reduced_rare (recipe_df : list Row) : list Row :=
  apply_cleaned (remove_rare_ingredients (rare_ingredients recipe_df))
                (reduced_common recipe_df).

(** [reduced_df[(counts >= MIN_INGREDIENT) & (counts <= MAX_INGREDIENT)]] *)
Definition size_filter (reduced_df : list Row) : list Row :=
  filter (λ r, let count := length (cleaned_ingredients r) in
               MIN_INGREDIENT ≤ count ∧ count ≤ MAX_INGREDIENT)
         reduced_df.

Definition reduced_df (recipes : list Recipe) : list Row :=
  size_filter (reduced_rare (recipe_df recipes)).

End corpus.

(** *** The vocabulary listing and the texts handed to the encoder *)

(** [series.unique()]: the distinct entries in the order of their first
    appearance; [seen] holds the entries already met. *)
Fixpoint unique_go (seen entries : list (option string))
  : list (option string) :=
  match entries with
  | [] => []
  | entry :: entries =>
      if bool_decide (entry ∈ seen)
      then unique_go seen entries
      else entry :: unique_go (entry :: seen) entries
  end.

Definition series_unique (entries : list (option string))
  : list (option string) :=
  unique_go [] entries.

(** What [astype(str)] and [join] make of a missing value is the library's
    and changes with its version, which the notebook does not fix: the
    value may read "nan", or stay missing, and then [join] raises
    TypeError.  [missing_text] is the text of a missing value, if the
    library gives it one. *)
Class Frames := { missing_text : option string }.

(** [array.astype(str)] on one entry, as [join] accepts it. *)
Definition astype_str `{Frames} (entry : option string) : option string :=
  match entry with
  | Some ingredient => Some ingredient
  | None => missing_text
  end.

(** The local [ingredients] of [save_ingredients] after
    [ingredients.sort()]; the column has no missing list, so [dropna] keeps
    every row. *)
Definition saved_ingredients `{Frames} (ingredient_series : list (list string))
  : option (list string) :=
  ingredients ← mapM astype_str (series_unique (explode ingredient_series));
  Some (Py.sorted ingredients).

(** The text that [save_ingredients] writes: the entries joined by line
    feeds. *)
Definition save_ingredients `{Frames} (ingredient_series : list (list string))
  : option string :=
  Py.join (String "010" EmptyString) <$> saved_ingredients ingredient_series.

(** [ingredients_as_texts = [" ".join(sorted(ingredients)) for ingredients
    in reduced_df["cleaned_ingredients"]]] *)
Definition ingredients_as_texts (reduced_df : list Row) : list string :=
  (λ r, Py.join " " (Py.sorted (cleaned_ingredients r))) <$> reduced_df.

End Clustering.

Import Clustering.

(** ** The association-analysis notebook *)

Module Association.

(** The data files of the notebook: [data/stopwords.txt],
    [data/thesaurus.json] (used at word and at phrase level),
    [data/components.json]. *)
Class Data := {
  stopwords : list string;
  thesaurus : gmap string string;
  ingredient_components : gmap string Py.value
}.

Definition remove_parentheses (ingredient : string) : string :=
  Re.sub Re.space_parens_plus ingredient.

Definition select_first_option (ingredient : string) : string :=
  Py.item0 (Py.split_sep " or " ingredient).

Definition clean_ingredient (ingredient : string) : string :=
  let ingredient := remove_parentheses ingredient in
  let ingredient := select_first_option ingredient in
  Py.strip (Py.lower ingredient).

(** [[v for i in x if (v := f(i))]] *)
Definition keep_nonempty (f : string → string) (x : list string)
  : list string :=
  filter Py.truthy (f <$> x).

Section steps.
Context {tagger : Tagger} {data : Data}.

Definition correct_noun_pos_tags (token : Token) : Token :=
  let outliers := ["cauliflower"; "baking"] in
  if bool_decide (text token ∈ outliers)
  then set_pos token "NOUN"
  else token.

Definition lemmatize_nouns (ingredient : string) : string :=
  let doc := nlp ingredient in
  let lemmas :=
    fold_left
      (λ lemmas token,
         let token := correct_noun_pos_tags token in
         if is_alpha token && negb (is_stop token)
            && bool_decide (pos_ token ∈ ["NOUN"; "PROPN"])
         then lemmas ++ [lemma_ token]
         else lemmas)
      doc [] in
  Py.join " " lemmas.

Definition filter_stopwords (text : string) : string :=
  let words :=
    fold_left
      (λ words word,
         if bool_decide (word ∉ stopwords) then words ++ [word] else words)
      (Py.split text) [] in
  Py.join " " words.

Definition standardize_at_word_level (ingredient : string) : string :=
  let words :=
    fold_left (λ words word, words ++ [Py.get thesaurus word word])
              (Py.split ingredient) [] in
  Py.join " " words.

Definition remove_duplicates (text : string) : string :=
  let '(seen, unique) :=
    fold_left
      (λ '((seen, unique) : gset string * list string) word,
         if bool_decide (word ∉ seen)
         then ({[word]} ∪ seen, unique ++ [word])
         else (seen, unique))
      (Py.split text) (∅, []) in
  Py.join " " unique.

Definition standardize_at_phrase_level (ingredient : string) : string :=
  Py.get thesaurus ingredient ingredient.

Definition break_down_ingredient (ingredient : string) : list string :=
  let components :=
    Py.get ingredient_components ingredient (Py.Str ingredient) in
  match components with
  | Py.Str s => [s]
  | Py.Lst l => l
  end.

(** The columns of [recipe_df] for one recipe, each computed from the
    one before; [x] is the recipe's list of raw ingredients. *)
Definition cleaned (x : list string) : list string :=
  keep_nonempty clean_ingredient x.

Definition lemmatized (x : list string) : list string :=
  keep_nonempty lemmatize_nouns (cleaned x).

Definition filtered (x : list string) : list string :=
  keep_nonempty filter_stopwords (lemmatized x).

Definition standardized_word (x : list string) : list string :=
  keep_nonempty standardize_at_word_level (filtered x).

Definition unique (x : list string) : list string :=
  keep_nonempty remove_duplicates (standardized_word x).

Definition standardized_phrase (x : list string) : list string :=
  keep_nonempty standardize_at_phrase_level (unique x).

(** [[component for i in x for component in break_down_ingredient(i)]] *)
Definition components (x : list string) : list string :=
  flat_map break_down_ingredient (standardized_phrase x).
End steps.

(** [drop_empty_ingredients] on a frame that has the column: the new frame
    and the number of rows the function reports as dropped. *)
Definition drop_empty_ingredients (recipe_df : list Recipe)
  : nat * list (string * list string) :=
  let new_df := dropna recipe_df in
  (length recipe_df - length new_df, new_df).

End Association.

(** ** The specification's reading of the linguistic filter

    Written from the words of the specification, to be compared with
    [Clustering.lemmatize_valid_nouns]. *)

Module Spec.

(** The POS-override table: literal word to forced tag. *)
Definition POSOverride : gmap string string :=
  {[ "cauliflower" := "NOUN"; "baking" := "NOUN" ]}.

(** The tag of a token once the override is applied. *)
Definition effective_tag (t : Token) : string :=
  default (pos_ t) (POSOverride !! text t).

(** A token's lemma is retained iff the token is alphabetic, is not a
    generic stopword and is tagged NOUN or PROPN. *)
Definition retained (t : Token) : bool :=
  is_alpha t && negb (is_stop t)
  && (bool_decide (effective_tag t = "NOUN")
      || bool_decide (effective_tag t = "PROPN")).

Definition LinguisticFilter `{!Tagger} (s : string) : string :=
  Py.join " " (lemma_ <$> filter retained (nlp s)).

End Spec.

(** ** Vocabulary of the statements *)

(** [has_char c s]: the character [c] occurs in [s]. *)
Fixpoint has_char (c : ascii) (s : string) : bool :=
  match s with
  | EmptyString => false
  | String x r => Ascii.eqb x c || has_char c r
  end.

(** [sep] occurs in [s]. *)
Definition occurs_in (sep s : string) : Prop :=
  ∃ a b, s = a +:+ sep +:+ b.

(** The first occurrence of [sep] in [s] starts right after [pre]. *)
Definition first_at (sep s pre : string) : Prop :=
  ∃ post, s = pre +:+ sep +:+ post
          ∧ ∀ a b, s = a +:+ sep +:+ b → String.length pre ≤ String.length a.

(** [f] keeps the text before the first occurrence of [sep], the whole
    string when there is none. *)
Definition keeps_first_segment (sep : string) (f : string → string) : Prop :=
  (∀ s, ¬ occurs_in sep s → f s = s)
  ∧ (∀ s pre, first_at sep s pre → f s = pre).

(** [f] deletes every text of the form [(body)] whose [body] has no closing
    parenthesis, empty bodies included, and nothing else; text before the
    opening parenthesis is kept, a space included. *)
Definition deletes_parenthesized (f : string → string) : Prop :=
  (∀ s, has_char "(" s = false → f s = s)
  ∧ (∀ pre body post,
       has_char "(" pre = false → has_char ")" body = false →
       f (pre +:+ "(" +:+ body +:+ ")" +:+ post) = pre +:+ f post)
  ∧ (∀ pre r,
       has_char "(" pre = false → has_char ")" r = false →
       f (pre +:+ "(" +:+ r) = pre +:+ "(" +:+ r).

(** [f] deletes every text of the form [(body)] whose [body] is not empty
    and has no closing parenthesis, together with one space right before
    the opening parenthesis if there is one; parentheses without content
    are kept. *)
Definition deletes_parenthesized_content (f : string → string) : Prop :=
  (∀ s, has_char "(" s = false → f s = s)
  ∧ (∀ pre body post,
       has_char "(" pre = false → (∀ p, pre ≠ p +:+ " ") →
       body ≠ "" → has_char ")" body = false →
       f (pre +:+ "(" +:+ body +:+ ")" +:+ post) = pre +:+ f post)
  ∧ (∀ pre body post,
       has_char "(" pre = false →
       body ≠ "" → has_char ")" body = false →
       f (pre +:+ " (" +:+ body +:+ ")" +:+ post) = pre +:+ f post)
  ∧ (∀ pre post,
       has_char "(" pre = false →
       f (pre +:+ "()" +:+ post) = pre +:+ "()" +:+ f post)
  ∧ (∀ pre r,
       has_char "(" pre = false → has_char ")" r = false →
       f (pre +:+ "(" +:+ r) = pre +:+ "(" +:+ r).

(** [t] is [s] without its leading and trailing whitespace. *)
Definition trimmed (s t : string) : Prop :=
  (∃ l r, Py.blank l ∧ Py.blank r ∧ s = l +:+ t +:+ r)
  ∧ (∀ c r, t = String c r → Py.isspace c = false)
  ∧ (∀ r c, t = r +:+ String c "" → Py.isspace c = false).

(** A word: a non-empty string without whitespace. *)
Fixpoint no_space (s : string) : bool :=
  match s with
  | EmptyString => true
  | String c r => negb (Py.isspace c) && no_space r
  end.

Definition is_word (w : string) : bool := Py.truthy w && no_space w.

(** Words separated by exactly one space; the empty string for no word. *)
Definition single_spaced (s : string) : Prop :=
  ∃ ws, Forall is_word ws ∧ s = Py.join " " ws.

(** A whitespace-normalised string: no leading or trailing whitespace, words
    separated by exactly one space, and never blank unless empty. *)
Definition whitespace_normalized (s : string) : Prop :=
  Py.strip s = s ∧ single_spaced s ∧ (Py.blank s → s = "").

(** The strings a thesaurus value contributes. *)
Definition value_strings (v : Py.value) : list string :=
  match v with
  | Py.Str s => [s]
  | Py.Lst l => l
  end.

(** The number of entries of an exploded column equal to [i]. *)
Definition occurrences (i : string) (entries : list (option string)) : nat :=
  length (filter (λ e, e = Some i) entries).

(** The number of recipes whose [cleaned_ingredients] contain [i]. *)
Definition recipes_containing (i : string) (df : list Row) : nat :=
  length (filter (λ r, i ∈ cleaned_ingredients r) df).

(** The entry of [i] in the frequency table, 0 when it has none. *)
Definition corpus_count (df : list Row) (i : string) : nat :=
  default 0 (counts df !! i).

(** What one lookup of [phrase] in a table gives: the sequence of a
    sequence entry, the string of a string entry, [phrase] itself when it
    has no entry. *)
Definition expansion (table : gmap string Py.value) (phrase : string)
  : list string :=
  match table !! phrase with
  | Some (Py.Lst l) => l
  | Some (Py.Str s) => [s]
  | None => [phrase]
  end.

(** The contract on [cleaned_ingredients]: ascending order, no duplicate,
    no empty string, and no blank string other than a value of the phrase
    thesaurus. *)
Definition contract `{!Lexicon} (c : list string) : Prop :=
  Sorted String.le c ∧ NoDup c ∧ ("" ∉ c)
  ∧ ∀ x, x ∈ c → Py.blank x →
         ∃ k v, phrase_synonyms !! k = Some v ∧ x ∈ value_strings v.

(** The match of a closing parenthesis, the tail of both patterns. *)
Definition match_close : string → option nat :=
  Re.match_here [Re.One (Re.Lit ")")].

(** The match of the pattern of the association notebook without its
    optional space. *)
Definition match_core : string → option nat :=
  Re.match_here
    [Re.One (Re.Lit "("); Re.Plus (Re.NotLit ")"); Re.One (Re.Lit ")")].

(** Strictly ascending code-point order. *)
Definition ascending (l : list string) : Prop :=
  Sorted (strict String.le) l.

(** ** A small tagger and lexicon for the examples *)

Module Demo.

Definition letter (c : ascii) : bool :=
  let n := N_of_ascii c in
  (((65 <=? n) && (n <=? 90)) || ((97 <=? n) && (n <=? 122)))%N.

Fixpoint letters (s : string) : bool :=
  match s with
  | EmptyString => true
  | String c r => letter c && letters r
  end.

(** The lemma of a word: a final "s" is dropped. *)
Fixpoint singular (w : string) : string :=
  match w with
  | EmptyString => EmptyString
  | String c EmptyString => if Ascii.eqb c "s" then EmptyString else w
  | String c r => String c (singular r)
  end.

Definition token_of (w : string) : Token :=
  {| text := w;
     lemma_ := singular w;
     pos_ := if bool_decide (w ∈ ["small"; "fresh"; "cauliflower"]) then "ADJ"
             else if letters w then "NOUN" else "NUM";
     is_alpha := Py.truthy w && letters w;
     is_stop := bool_decide (w ∈ ["or"; "to"; "the"; "of"]) |}.

(** One token per whitespace-separated word. *)
Definition tagger : Tagger := {| nlp s := token_of <$> Py.split s |}.

Definition lexicon : Lexicon := {|
  stopwords := ["piece"; "cup"];
  word_synonyms := {[ "kalamansi" := "calamansi" ]};
  phrase_synonyms :=
    {[ "soy sauce" := Py.Str "toyo";
       "adobo sauce" := Py.Lst ["toyo"; "vinegar"] ]}
|}.

Definition data : Association.Data := {|
  Association.stopwords := ["piece"; "cup"];
  Association.thesaurus := {[ "kalamansi" := "calamansi" ]};
  Association.ingredient_components :=
    {[ "adobo sauce" := Py.Lst ["soy sauce"; "vinegar"];
       "soy sauce" := Py.Lst ["soybean"; "salt"];
       "water" := Py.Lst [] ]}
|}.

(** A word thesaurus with a chain of two entries. *)
Definition chained : Lexicon := {|
  stopwords := [];
  word_synonyms := {[ "sili" := "chili"; "chili" := "pepper" ]};
  phrase_synonyms := ∅
|}.

(** A phrase thesaurus whose string value has a sequence entry of its
    own. *)
Definition nested : Lexicon := {|
  stopwords := [];
  word_synonyms := ∅;
  phrase_synonyms :=
    {[ "sarsa" := Py.Str "adobo sauce";
       "adobo sauce" := Py.Lst ["soy sauce"; "vinegar"] ]}
|}.

(** A word thesaurus that maps a word to the empty string. *)
Definition erasing : Lexicon := {|
  stopwords := [];
  word_synonyms := {[ "water" := "" ]};
  phrase_synonyms := ∅
|}.

(** A phrase thesaurus with a blank value. *)
Definition blanking : Lexicon := {|
  stopwords := [];
  word_synonyms := ∅;
  phrase_synonyms := {[ "water" := Py.Str " " ]}
|}.

(** A tagger whose lemma of "x" is a single space. *)
Definition spacing : Tagger := {|
  nlp s := (λ w, {| text := w; lemma_ := " "; pos_ := "NOUN";
                    is_alpha := true; is_stop := false |}) <$> Py.split s
|}.

End Demo.

(** * Properties *)

(** ** Strings *)

Section strings.
Implicit Types (s t u w : string) (c : ascii).

Lemma str_app_nil_l s : "" +:+ s = s.
Proof. reflexivity. Qed.

Lemma str_app_cons c s t : String c s +:+ t = String c (s +:+ t).
Proof. reflexivity. Qed.

Lemma str_app_nil_r s : s +:+ "" = s.
Proof. induction s as [|c s IH]; [done|]. by rewrite str_app_cons, IH. Qed.

Lemma str_app_assoc s t u : (s +:+ t) +:+ u = s +:+ (t +:+ u).
Proof. induction s as [|c s IH]; [done|]. by rewrite !str_app_cons, IH. Qed.

Lemma str_app_snoc_cons s c t : (s +:+ String c "") +:+ t = s +:+ String c t.
Proof. by rewrite str_app_assoc. Qed.

Lemma str_rev_app_spec s t : String.rev_app s t = String.rev s +:+ t.
Proof.
  unfold String.rev. revert t.
  induction s as [|c s IH]; intros t; simpl; [done|].
  rewrite IH, (IH (String c "")). by rewrite str_app_assoc.
Qed.

Lemma str_rev_cons c s : String.rev (String c s) = String.rev s +:+ String c "".
Proof. unfold String.rev at 1. simpl. apply str_rev_app_spec. Qed.

Lemma str_rev_snoc s c : String.rev (s +:+ String c "") = String c (String.rev s).
Proof.
  induction s as [|x s IH]; [done|].
  by rewrite str_app_cons, !str_rev_cons, IH.
Qed.

Lemma str_rev_involutive s : String.rev (String.rev s) = s.
Proof.
  induction s as [|c s IH]; [done|]. by rewrite str_rev_cons, str_rev_snoc, IH.
Qed.

Lemma no_space_app s t : no_space (s +:+ t) = no_space s && no_space t.
Proof.
  induction s as [|c s IH]; [done|].
  rewrite str_app_cons. simpl. rewrite IH. by destruct (Py.isspace c).
Qed.

Lemma truthy_app_cons s c t : Py.truthy (s +:+ String c t) = true.
Proof. by destruct s. Qed.

Lemma blank_app s t : Py.blank (s +:+ t) = Py.blank s && Py.blank t.
Proof.
  induction s as [|c s IH]; [done|].
  rewrite str_app_cons. simpl. rewrite IH. by destruct (Py.isspace c).
Qed.

(** A word is not blank. *)
Lemma is_word_not_blank w : is_word w → Py.blank w = false.
Proof.
  destruct w as [|c w]; [done|]. unfold is_word. simpl.
  by destruct (Py.isspace c).
Qed.

Lemma isspace_space : Py.isspace " " = true.
Proof. reflexivity. Qed.
End strings.

(** ** [split] and [join] *)

Section split_join.
Implicit Types (s t w cur : string) (ws : list string).

Lemma split_go_space c cur s :
  Py.isspace c = true →
  Py.split_go cur (String c s)
  = (if Py.truthy cur then [cur] else []) ++ Py.split_go "" s.
Proof. intros Hc. simpl. rewrite Hc. by destruct cur. Qed.

Lemma split_go_word w cur s :
  no_space w → Py.split_go cur (w +:+ s) = Py.split_go (cur +:+ w) s.
Proof.
  revert cur. induction w as [|c w IH]; intros cur Hw.
  - by rewrite str_app_nil_r.
  - simpl in Hw. apply andb_prop_elim in Hw as [Hc Hw].
    rewrite str_app_cons. simpl.
    destruct (Py.isspace c); [done|].
    rewrite IH by done. by rewrite str_app_snoc_cons.
Qed.

(** Every element of [s.split()] is a word. *)
Lemma split_go_words cur s :
  no_space cur → Forall is_word (Py.split_go cur s).
Proof.
  revert cur. induction s as [|c s IH]; intros cur Hcur; simpl.
  - destruct cur; [constructor|].
    constructor; [|constructor]. unfold is_word. by rewrite andb_True.
  - destruct (Py.isspace c) eqn:Hc.
    + destruct cur; [by apply IH|].
      constructor; [|by apply IH]. unfold is_word. by rewrite andb_True.
    + apply IH. rewrite no_space_app. simpl. rewrite Hc. simpl.
      by rewrite !andb_True.
Qed.

Lemma split_words s : Forall is_word (Py.split s).
Proof. by apply split_go_words. Qed.

Lemma join_nil sep : Py.join sep [] = "".
Proof. reflexivity. Qed.

Lemma join_singleton sep w : Py.join sep [w] = w.
Proof. reflexivity. Qed.

Lemma join_cons_cons sep w w' ws :
  Py.join sep (w :: w' :: ws) = w +:+ sep +:+ Py.join sep (w' :: ws).
Proof. reflexivity. Qed.

Lemma join_cons sep w ws :
  ws ≠ [] → Py.join sep (w :: ws) = w +:+ sep +:+ Py.join sep ws.
Proof. by destruct ws. Qed.

Lemma join_app sep ws1 ws2 :
  ws1 ≠ [] → ws2 ≠ [] →
  Py.join sep (ws1 ++ ws2) = Py.join sep ws1 +:+ sep +:+ Py.join sep ws2.
Proof.
  intros H1 H2. induction ws1 as [|w ws1 IH]; [done|].
  destruct ws1 as [|w' ws1].
  - change ([w] ++ ws2) with (w :: ws2). by rewrite join_cons.
  - change ((w :: w' :: ws1) ++ ws2) with (w :: (w' :: ws1) ++ ws2).
    rewrite join_cons_cons, join_cons by done.
    rewrite IH by done. by rewrite !str_app_assoc.
Qed.

(** Splitting a single-spaced string gives back its words. *)
Lemma split_join ws : Forall is_word ws → Py.split (Py.join " " ws) = ws.
Proof.
  unfold Py.split. induction 1 as [|w ws Hw Hws IH]; [done|].
  apply andb_prop_elim in Hw as [Hne Hns].
  destruct ws as [|w' ws].
  - rewrite join_singleton.
    pose proof (split_go_word w "" "" Hns) as Hgo.
    rewrite str_app_nil_r in Hgo. rewrite Hgo. simpl. by destruct w.
  - rewrite join_cons_cons, split_go_word by done.
    rewrite str_app_nil_l, str_app_cons, split_go_space by done.
    rewrite str_app_nil_l, IH. by destruct w.
Qed.

Lemma join_truthy ws : Forall is_word ws → ws ≠ [] → Py.truthy (Py.join " " ws).
Proof.
  intros Hws Hne. destruct Hws as [|w ws Hw Hws]; [done|].
  apply andb_prop_elim in Hw as [Hw _].
  destruct ws; [done|]. rewrite join_cons_cons. by destruct w.
Qed.

(** A single-spaced string is blank only when it is empty. *)
Lemma join_not_blank ws :
  Forall is_word ws → Py.blank (Py.join " " ws) → Py.join " " ws = "".
Proof.
  intros Hws Hb. destruct Hws as [|w ws Hw Hws]; [done|].
  apply is_word_not_blank in Hw.
  destruct ws as [|w' ws].
  - rewrite join_singleton in Hb. by rewrite Hw in Hb.
  - rewrite join_cons_cons, blank_app, Hw in Hb. done.
Qed.

(** A non-empty single-spaced string starts and ends with a character
    that is not whitespace. *)
Lemma word_first w :
  is_word w → ∃ c r, w = String c r ∧ Py.isspace c = false.
Proof.
  destruct w as [|c r]; [done|]. unfold is_word. simpl.
  destruct (Py.isspace c) eqn:Hc; [done|]. eauto.
Qed.

Lemma word_last w :
  is_word w → ∃ r c, w = r +:+ String c "" ∧ Py.isspace c = false.
Proof.
  induction w as [|c w IH]; [done|]. unfold is_word. simpl.
  destruct (Py.isspace c) eqn:Hc; [done|]. simpl. intros Hw.
  destruct w as [|c' w].
  - exists "", c. done.
  - destruct IH as (r & d & -> & Hd).
    { unfold is_word. simpl. done. }
    exists (String c r), d. by rewrite str_app_cons.
Qed.

Lemma join_first ws :
  Forall is_word ws → ws ≠ [] →
  ∃ c r, Py.join " " ws = String c r ∧ Py.isspace c = false.
Proof.
  intros Hws Hne. destruct Hws as [|w ws Hw Hws]; [done|].
  apply word_first in Hw as (c & r & -> & Hc).
  destruct ws as [|w' ws]; [by eauto|].
  rewrite join_cons_cons, str_app_cons. eauto.
Qed.

Lemma join_last ws :
  Forall is_word ws → ws ≠ [] →
  ∃ r c, Py.join " " ws = r +:+ String c "" ∧ Py.isspace c = false.
Proof.
  induction 1 as [|w ws Hw Hws IH]; [done|]. intros _.
  destruct ws as [|w' ws].
  - rewrite join_singleton. by apply word_last.
  - destruct IH as (r & c & Hr & Hc); [done|].
    exists (w +:+ " " +:+ r), c. split; [|done].
    rewrite join_cons_cons, Hr. by rewrite !str_app_assoc.
Qed.

Lemma lstrip_first c r : Py.isspace c = false → Py.lstrip (String c r) = String c r.
Proof. intros Hc. simpl. by rewrite Hc. Qed.

Lemma strip_join ws : Forall is_word ws → Py.strip (Py.join " " ws) = Py.join " " ws.
Proof.
  intros Hws. destruct (decide (ws = [])) as [->|Hne]; [done|].
  unfold Py.strip, Py.rstrip.
  destruct (join_first ws Hws Hne) as (c & r & Hj & Hc).
  rewrite Hj, lstrip_first by done. rewrite <-Hj.
  destruct (join_last ws Hws Hne) as (r' & c' & Hj' & Hc').
  rewrite Hj', str_rev_snoc, lstrip_first by done.
  by rewrite <-str_rev_snoc, str_rev_involutive.
Qed.

Lemma join_normalized ws :
  Forall is_word ws → whitespace_normalized (Py.join " " ws).
Proof.
  intros Hws. split; [by apply strip_join|]. split.
  - by exists ws.
  - by apply join_not_blank.
Qed.

(** Single-spaced strings are the fixed points of [" ".join(s.split())]. *)
Lemma single_spaced_iff s : single_spaced s ↔ Py.join " " (Py.split s) = s.
Proof.
  split.
  - intros (ws & Hws & ->). by rewrite split_join.
  - intros <-. exists (Py.split s). split; [apply split_words|done].
Qed.
End split_join.

(** ** The loops of the stages *)

Section loops.

(** A loop that appends [f x] to an accumulator for the elements [x] that
    pass a test computes a filtered map. *)
Lemma fold_left_collect {A B} (keep : A → bool) (f : A → B)
    (l : list A) (acc : list B) :
  fold_left (λ acc x, if keep x then acc ++ [f x] else acc) l acc
  = acc ++ (f <$> filter keep l).
Proof.
  revert acc. induction l as [|x l IH]; intros acc; simpl.
  - by rewrite app_nil_r.
  - rewrite IH, filter_cons. destruct (keep x) eqn:Hx.
    + rewrite decide_True by done. by rewrite <-app_assoc.
    + by rewrite decide_False by (by intros []).
Qed.

Lemma fold_left_ext {A B} (f g : B → A → B) (l : list A) (b : B) :
  (∀ b x, f b x = g b x) → fold_left f l b = fold_left g l b.
Proof.
  intros Hfg. revert b. induction l as [|x l IH]; intros b; simpl; [done|].
  by rewrite Hfg, IH.
Qed.

Lemma POSOverride_lookup w :
  Spec.POSOverride !! w
  = if bool_decide (w ∈ ["cauliflower"; "baking"]) then Some "NOUN" else None.
Proof.
  unfold Spec.POSOverride. case_bool_decide as Hw.
  - apply elem_of_cons in Hw as [->|Hw]; [done|].
    apply elem_of_cons in Hw as [->|Hw]; [done|].
    by apply elem_of_nil in Hw.
  - rewrite lookup_insert_ne, lookup_singleton_ne; [done|..];
      intros <-; apply Hw; set_solver.
Qed.

Lemma lemmatize_step_retained valid_lemmas token :
  lemmatize_step valid_lemmas token
  = if Spec.retained token then valid_lemmas ++ [lemma_ token]
    else valid_lemmas.
Proof.
  unfold lemmatize_step, Spec.retained, Spec.effective_tag.
  rewrite POSOverride_lookup.
  destruct (bool_decide (text token ∈ ["cauliflower"; "baking"])); simpl.
  - done.
  - assert (bool_decide (pos_ token ∈ ["NOUN"; "PROPN"])
            = bool_decide (pos_ token = "NOUN")
              || bool_decide (pos_ token = "PROPN")) as ->; [|done].
    apply eq_true_iff_eq.
    rewrite orb_true_iff, !bool_decide_eq_true. set_solver.
Qed.

Context {tagger : Tagger} {lexicon : Lexicon}.

Lemma lemmatize_valid_nouns_filter s :
  lemmatize_valid_nouns s
  = Py.join " " (lemma_ <$> filter Spec.retained (nlp s)).
Proof.
  unfold lemmatize_valid_nouns.
  rewrite (fold_left_ext _ _ _ _ lemmatize_step_retained).
  by rewrite fold_left_collect.
Qed.

Lemma filter_stopwords_filter s :
  filter_stopwords s
  = Py.join " " (filter (λ term, term ∉ stopwords) (Py.split s)).
Proof.
  unfold filter_stopwords.
  rewrite (fold_left_collect (λ term, bool_decide (term ∉ stopwords)) id).
  rewrite list_fmap_id. simpl. f_equal.
  apply list_filter_iff. intros w. by rewrite bool_decide_spec.
Qed.

Lemma handle_word_synonym_map s :
  handle_word_synonym s
  = Py.join " " ((λ word, Py.get word_synonyms word word) <$> Py.split s).
Proof.
  unfold handle_word_synonym.
  rewrite (fold_left_collect (λ _, true) (λ w, Py.get word_synonyms w w)).
  simpl. do 2 f_equal. induction (Py.split s) as [|w ws IH]; [done|].
  by rewrite filter_cons, decide_True, IH.
Qed.

(** The loop of [remove_duplicates] keeps [seen] equal to the set of the
    elements of [unique], which has no repetition and whose elements come
    from the accumulator or from the words read. *)
Lemma remove_duplicates_loop (words : list string) (unique0 : list string) :
  NoDup unique0 →
  ∃ unique,
    fold_left
      (λ '((seen, unique) : gset string * list string) ingredient,
         if bool_decide (ingredient ∉ seen)
         then ({[ingredient]} ∪ seen, unique ++ [ingredient])
         else (seen, unique))
      words (list_to_set unique0, unique0)
    = (list_to_set unique, unique)
    ∧ NoDup unique
    ∧ ∀ w, w ∈ unique ↔ w ∈ unique0 ∨ w ∈ words.
Proof.
  revert unique0. induction words as [|w words IH]; intros unique0 Hnd; simpl.
  - exists unique0. set_solver.
  - case_bool_decide as Hw.
    + destruct (IH (unique0 ++ [w])) as (u & Hu & Hnd' & Hin).
      { apply NoDup_app. split_and!; [done| |apply NoDup_singleton].
        intros x Hx ->%list_elem_of_singleton. set_solver. }
      exists u. split_and!; [|done|].
      * rewrite <-Hu. f_equal. f_equal.
        rewrite list_to_set_app_L. set_solver.
      * intros x. rewrite Hin. set_solver.
    + destruct (IH unique0 Hnd) as (u & Hu & Hnd' & Hin).
      exists u. split_and!; [done..|].
      intros x. rewrite Hin. set_solver.
Qed.

Lemma remove_duplicates_unique s :
  ∃ unique, remove_duplicates s = Py.join " " unique
            ∧ NoDup unique
            ∧ ∀ w, w ∈ unique ↔ w ∈ Py.split s.
Proof.
  unfold remove_duplicates.
  destruct (remove_duplicates_loop (Py.split s) []) as (u & Hu & Hnd & Hin);
    [constructor|].
  simpl in Hu. rewrite Hu. exists u. split_and!; [done..|].
  intros w. rewrite Hin. set_solver.
Qed.

End loops.

(** ** Whitespace normalisation of the stages *)

Section normalisation.
Context {tagger : Tagger} {lexicon : Lexicon}.

(** Joining non-empty single-spaced strings gives a single-spaced
    string. *)
Lemma join_single_spaced (vs : list string) :
  Forall (λ v, v ≠ "" ∧ single_spaced v) vs →
  ∃ ws, Forall is_word ws ∧ Py.join " " vs = Py.join " " ws
        ∧ (vs ≠ [] → ws ≠ []).
Proof.
  induction 1 as [|v vs [Hne (wv & Hwv & ->)] Hvs (ws & Hws & Hj & Hnil)].
  - exists []. by split_and!.
  - assert (wv ≠ []) as Hwvne by (by intros ->).
    destruct vs as [|v' vs].
    + exists wv. by split_and!.
    + exists (wv ++ ws). split_and!.
      * by apply Forall_app.
      * rewrite join_cons by done. rewrite Hj.
        rewrite join_app; [done..|]. by apply Hnil.
      * intros _. by destruct wv.
Qed.

Lemma join_values_normalized (vs : list string) :
  Forall (λ v, v ≠ "" ∧ single_spaced v) vs →
  whitespace_normalized (Py.join " " vs).
Proof.
  intros (ws & Hws & -> & _)%join_single_spaced. by apply join_normalized.
Qed.

Lemma filter_stopwords_normalized s :
  whitespace_normalized (filter_stopwords s).
Proof.
  rewrite filter_stopwords_filter. apply join_normalized.
  apply Forall_forall. intros w [_ Hw]%list_elem_of_filter.
  revert w Hw. apply Forall_forall, split_words.
Qed.

Lemma remove_duplicates_normalized s :
  whitespace_normalized (remove_duplicates s).
Proof.
  destruct (remove_duplicates_unique s) as (u & -> & _ & Hin).
  apply join_normalized, Forall_forall. intros w Hw%Hin.
  revert w Hw. apply Forall_forall, split_words.
Qed.

Lemma is_word_single_spaced w : is_word w → w ≠ "" ∧ single_spaced w.
Proof.
  intros Hw. split.
  - intros ->. done.
  - exists [w]. split; [by constructor|done].
Qed.

Lemma handle_word_synonym_normalized s :
  (∀ w v, w ∈ Py.split s → word_synonyms !! w = Some v →
          v ≠ "" ∧ single_spaced v) →
  whitespace_normalized (handle_word_synonym s).
Proof.
  intros Hsyn. rewrite handle_word_synonym_map.
  apply join_values_normalized, Forall_fmap, Forall_forall.
  intros w Hw. simpl. unfold Py.get.
  destruct (word_synonyms !! w) as [v|] eqn:Hv; [by eapply Hsyn|].
  apply is_word_single_spaced. clear Hv. revert w Hw.
  apply Forall_forall, split_words.
Qed.

Lemma lemmatize_valid_nouns_normalized s :
  (∀ t, t ∈ nlp s → Spec.retained t →
        lemma_ t ≠ "" ∧ single_spaced (lemma_ t)) →
  whitespace_normalized (lemmatize_valid_nouns s).
Proof.
  intros Hlem. rewrite lemmatize_valid_nouns_filter.
  apply join_values_normalized, Forall_fmap, Forall_forall.
  intros t [Hret Ht]%list_elem_of_filter. simpl. by apply Hlem.
Qed.

End normalisation.

(** ** [sorted(set(...))] *)

Section sorted_set.
Implicit Types (l : list string) (X : gset string).

Lemma sorted_Sorted l : Sorted String.le (Py.sorted l).
Proof. apply Sorted_merge_sort, _. Qed.

Lemma sorted_Permutation l : Py.sorted l ≡ₚ l.
Proof. apply merge_sort_Permutation. Qed.

Lemma elem_of_sorted x l : x ∈ Py.sorted l ↔ x ∈ l.
Proof. by rewrite sorted_Permutation. Qed.

(** The result of [sorted] depends only on the elements, not on their
    order. *)
Lemma sorted_order_irrelevant l1 l2 : l1 ≡ₚ l2 → Py.sorted l1 = Py.sorted l2.
Proof.
  intros Hp. apply (Sorted_unique String.le); [apply sorted_Sorted..|].
  by rewrite !sorted_Permutation.
Qed.

Lemma sorted_fixed l : Sorted String.le l → Py.sorted l = l.
Proof.
  intros Hl. apply (Sorted_unique String.le);
    [apply sorted_Sorted|done|apply sorted_Permutation].
Qed.

Lemma strict_le_le (x y : string) : strict String.le x y → String.le x y.
Proof. by intros []. Qed.

Lemma ascending_Sorted l : ascending l → Sorted String.le l.
Proof.
  unfold ascending. induction 1 as [|x l Hl IH Hhd]; constructor; [done|].
  destruct Hhd; constructor. by apply strict_le_le.
Qed.

Lemma ascending_NoDup l : ascending l → NoDup l.
Proof.
  intros Hl. apply Sorted_StronglySorted in Hl; [|apply _].
  induction Hl as [|x l Hl IH Hall]; constructor; [|done].
  intros Hx. rewrite Forall_forall in Hall.
  destruct (Hall x Hx) as [_ Hxx]. by apply Hxx.
Qed.

Lemma Sorted_NoDup_ascending l : Sorted String.le l → NoDup l → ascending l.
Proof.
  intros Hl Hnd. apply Sorted_StronglySorted in Hl; [|apply _].
  apply StronglySorted_Sorted.
  induction Hl as [|x l Hl IH Hall]; constructor.
  - apply IH. by apply NoDup_cons in Hnd as [_ ?].
  - apply NoDup_cons in Hnd as [Hx _].
    rewrite Forall_forall in Hall |- *. intros y Hy. split; [by apply Hall|].
    intros Hyx. assert (x = y) as -> by (apply (anti_symm String.le); auto).
    done.
Qed.

(** [sorted(set(l))] is strictly ascending and has the elements of [l],
    whatever the iteration order of the set. *)
Lemma sorted_set_ascending (iter : gset string → list string) l :
  (∀ X, iter X ≡ₚ elements X) →
  ascending (Py.sorted (iter (list_to_set l))).
Proof.
  intros Hiter. apply Sorted_NoDup_ascending; [apply sorted_Sorted|].
  rewrite sorted_Permutation, Hiter. apply NoDup_elements.
Qed.

Lemma elem_of_sorted_set (iter : gset string → list string) l x :
  (∀ X, iter X ≡ₚ elements X) →
  x ∈ Py.sorted (iter (list_to_set l)) ↔ x ∈ l.
Proof.
  intros Hiter. rewrite elem_of_sorted, Hiter, elem_of_elements.
  apply elem_of_list_to_set.
Qed.

(** On a strictly ascending list [sorted(set(l))] is the identity. *)
Lemma sorted_set_ascending_fixed l :
  ascending l → Py.sorted (elements (list_to_set l : gset string)) = l.
Proof.
  intros Hl. transitivity (Py.sorted l).
  - apply sorted_order_irrelevant, elements_list_to_set.
    by apply ascending_NoDup.
  - by apply sorted_fixed, ascending_Sorted.
Qed.

End sorted_set.

(** ** The recipe aggregator *)

Section aggregation.
Context {tagger : Tagger} {lexicon : Lexicon}.
Implicit Types (ingredients : list string) (x : string).

Lemma collect_step_strings acc ingredient :
  collect_step acc ingredient
  = acc ++ value_strings (preprocess_ingredient ingredient).
Proof. unfold collect_step. by destruct (preprocess_ingredient _). Qed.

Lemma collect_loop ingredients acc :
  fold_left collect_step ingredients acc
  = acc ++ flat_map (λ i, value_strings (preprocess_ingredient i)) ingredients.
Proof.
  revert acc. induction ingredients as [|i ingredients IH]; intros acc; simpl.
  - by rewrite app_nil_r.
  - by rewrite IH, collect_step_strings, <-app_assoc.
Qed.

(** The iteration order of the set has no influence on the result. *)
Lemma clean_ingredients_iter_eq (iter : gset string → list string) ingredients :
  (∀ X, iter X ≡ₚ elements X) →
  clean_ingredients_iter iter ingredients = clean_ingredients ingredients.
Proof.
  intros Hiter. unfold clean_ingredients, clean_ingredients_iter.
  apply sorted_order_irrelevant, Hiter.
Qed.

Lemma clean_ingredients_ascending ingredients :
  ascending (clean_ingredients ingredients).
Proof. by apply sorted_set_ascending. Qed.

Lemma truthy_nonempty x : Py.truthy x ↔ x ≠ "".
Proof. by destruct x. Qed.

Lemma elem_of_clean_ingredients x ingredients :
  x ∈ clean_ingredients ingredients
  ↔ x ≠ "" ∧ ∃ i, i ∈ ingredients
                  ∧ x ∈ value_strings (preprocess_ingredient i).
Proof.
  unfold clean_ingredients, clean_ingredients_iter.
  rewrite elem_of_sorted_set by done.
  rewrite list_elem_of_filter, truthy_nonempty, collect_loop, app_nil_l.
  rewrite list_elem_of_In, in_flat_map.
  setoid_rewrite <-list_elem_of_In. done.
Qed.

(** What the phrase-level lookup returns when the phrase has no entry is
    whitespace-normalised. *)
Lemma unique_terms_normalized ingredient :
  whitespace_normalized (unique_terms ingredient).
Proof. apply remove_duplicates_normalized. Qed.

(** A blank element of [cleaned_ingredients] is a value of the phrase
    thesaurus. *)
Lemma clean_ingredients_blank x ingredients :
  x ∈ clean_ingredients ingredients → Py.blank x →
  ∃ k v, phrase_synonyms !! k = Some v ∧ x ∈ value_strings v.
Proof.
  intros (Hne & i & _ & Hx)%elem_of_clean_ingredients Hblank.
  unfold preprocess_ingredient, handle_phrase_synonym, Py.get in Hx.
  destruct (phrase_synonyms !! unique_terms i) as [v|] eqn:Hv; [by eauto|].
  simpl in Hx. apply list_elem_of_singleton in Hx as ->.
  destruct (unique_terms_normalized i) as (_ & _ & Hb). by apply Hb in Hblank.
Qed.

Lemma ascending_filter (P : string → Prop) `{!∀ x, Decision (P x)} l :
  ascending l → ascending (filter P l).
Proof.
  intros Hl. apply Sorted_NoDup_ascending.
  - apply ascending_Sorted, Sorted_StronglySorted in Hl; [|apply _].
    apply StronglySorted_Sorted.
    induction Hl as [|y l Hl IH Hall]; [constructor|].
    rewrite filter_cons. case_decide; [|done]. constructor; [done|].
    rewrite Forall_forall in Hall |- *.
    intros z [_ Hz]%list_elem_of_filter. by apply Hall.
  - by apply NoDup_filter, ascending_NoDup.
Qed.

(** On a list of canonical tokens that the per-ingredient pipeline leaves
    unchanged, the aggregator is the identity. *)
Lemma clean_ingredients_fixed l :
  ascending l → "" ∉ l →
  (∀ t, t ∈ l → preprocess_ingredient t = Py.Str t) →
  clean_ingredients l = l.
Proof.
  intros Hl Hne Hfix. unfold clean_ingredients, clean_ingredients_iter.
  rewrite collect_loop, app_nil_l.
  assert (flat_map (λ i, value_strings (preprocess_ingredient i)) l = l) as ->.
  { clear Hl Hne. induction l as [|t l IH]; [done|]. simpl.
    rewrite (Hfix t) by set_solver. simpl. f_equal. apply IH.
    intros t' Ht'. apply Hfix. set_solver. }
  assert (filter Py.truthy l = l) as ->; [|by apply sorted_set_ascending_fixed].
  clear Hl Hfix. induction l as [|t l IH]; [done|].
  rewrite filter_cons, decide_True.
  - f_equal. apply IH. set_solver.
  - apply truthy_nonempty. set_solver.
Qed.

End aggregation.

(** ** The frequency table *)

Section frequency.
Implicit Types (i : string) (entries : list (option string))
               (df : list Row).

Lemma occurrences_nil i : occurrences i [] = 0.
Proof. reflexivity. Qed.

Lemma occurrences_cons i e entries :
  occurrences i (e :: entries)
  = (if decide (e = Some i) then 1 else 0) + occurrences i entries.
Proof. unfold occurrences. rewrite filter_cons. by case_decide. Qed.

Lemma occurrences_app i entries1 entries2 :
  occurrences i (entries1 ++ entries2)
  = occurrences i entries1 + occurrences i entries2.
Proof. unfold occurrences. by rewrite filter_app, length_app. Qed.

(** The loop of [value_counts] adds to the entry of [i] the number of
    occurrences of [i]. *)
Lemma value_counts_loop i entries (m : gmap string nat) :
  fold_left
    (λ counts entry,
       match entry with
       | Some i => <[i := S (default 0 (counts !! i))]> counts
       | None => counts
       end)
    entries m !! i
  = match occurrences i entries with
    | 0 => m !! i
    | S n => Some (default 0 (m !! i) + S n)
    end.
Proof.
  revert m. induction entries as [|e entries IH]; intros m; [done|].
  simpl. rewrite IH, occurrences_cons. destruct e as [j|].
  - destruct (decide (j = i)) as [->|Hne].
    + rewrite decide_True by done. rewrite lookup_insert_eq. simpl.
      destruct (occurrences i entries); f_equal; lia.
    + rewrite decide_False by congruence.
      by rewrite lookup_insert_ne.
  - by rewrite decide_False.
Qed.

Lemma value_counts_lookup i entries :
  value_counts entries !! i
  = match occurrences i entries with 0 => None | S n => Some (S n) end.
Proof.
  unfold value_counts. rewrite value_counts_loop, lookup_empty.
  by destruct (occurrences i entries).
Qed.

(** In a list without repetition an ingredient occurs once or not at
    all. *)
Lemma occurrences_NoDup i (l : list string) :
  NoDup l → occurrences i (Some <$> l) = if decide (i ∈ l) then 1 else 0.
Proof.
  induction 1 as [|j l Hj Hl IH]; [done|].
  rewrite fmap_cons, occurrences_cons, IH.
  destruct (decide (j = i)) as [->|Hne].
  - rewrite decide_True by done.
    rewrite (decide_True (P := i ∈ i :: l)) by set_solver.
    by rewrite decide_False.
  - rewrite decide_False by congruence.
    destruct (decide (i ∈ l)).
    + by rewrite decide_True by set_solver.
    + by rewrite decide_False by set_solver.
Qed.

(** Counting the exploded entries is counting the lists that contain the
    ingredient, when no list repeats an ingredient. *)
Lemma occurrences_explode i (column : list (list string)) :
  Forall NoDup column →
  occurrences i (explode column) = length (filter (λ l, i ∈ l) column).
Proof.
  induction 1 as [|l column Hl Hcol IH]; [done|].
  unfold explode in *. simpl.
  rewrite occurrences_app, IH, filter_cons.
  destruct l as [|j l].
  - rewrite decide_False by set_solver. done.
  - rewrite occurrences_NoDup by done. by case_decide.
Qed.

Lemma counts_lookup i df :
  counts df !! i
  = match occurrences i (explode (cleaned_ingredients <$> df)) with
    | 0 => None
    | S n => Some (S n)
    end.
Proof. apply value_counts_lookup. Qed.

Lemma corpus_count_occurrences i df :
  corpus_count df i = occurrences i (explode (cleaned_ingredients <$> df)).
Proof.
  unfold corpus_count. rewrite counts_lookup.
  by destruct (occurrences _ _).
Qed.

Lemma recipes_containing_fmap i df :
  length (filter (λ l, i ∈ l) (cleaned_ingredients <$> df))
  = recipes_containing i df.
Proof.
  unfold recipes_containing. induction df as [|r df IH]; [done|].
  rewrite fmap_cons, !filter_cons. case_decide; simpl; by rewrite IH.
Qed.

Lemma corpus_count_recipes i df :
  Forall (λ r, NoDup (cleaned_ingredients r)) df →
  corpus_count df i = recipes_containing i df.
Proof.
  intros Hdf. rewrite corpus_count_occurrences, occurrences_explode.
  - apply recipes_containing_fmap.
  - by apply Forall_fmap.
Qed.

Context {config : Config}.

Lemma elem_of_rare_ingredients i df :
  i ∈ rare_ingredients df
  ↔ 0 < corpus_count df i ∧ corpus_count df i ≤ MIN_FREQUENCY.
Proof.
  unfold rare_ingredients, corpus_count.
  rewrite elem_of_dom. unfold is_Some.
  setoid_rewrite map_lookup_filter_Some. simpl.
  rewrite counts_lookup.
  destruct (occurrences _ _) as [|n]; simpl.
  - split; [by intros (? & ? & _)|lia].
  - split.
    + intros (? & [= <-] & ?). lia.
    + intros [_ ?]. eauto.
Qed.

Lemma cleaned_ingredients_apply_cleaned f df k :
  cleaned_ingredients <$> apply_cleaned f df !! k
  = f <$> (cleaned_ingredients <$> df !! k).
Proof.
  unfold apply_cleaned. rewrite list_lookup_fmap.
  by destruct (df !! k).
Qed.

Lemma elem_of_apply_cleaned f df r' :
  r' ∈ apply_cleaned f df
  ↔ ∃ r, r ∈ df ∧ row_name r' = row_name r
         ∧ row_ingredients r' = row_ingredients r
         ∧ cleaned_ingredients r' = f (cleaned_ingredients r).
Proof.
  unfold apply_cleaned. rewrite list_elem_of_fmap. split.
  - intros (r & -> & Hr). by exists r.
  - intros (r & Hr & H1 & H2 & H3). exists r. split; [|done].
    destruct r'. simpl in *. by subst.
Qed.

End frequency.

(** ** The removal of parenthesised text *)

Section parentheses.
Implicit Types (s r pre body post : string) (x : ascii).

Lemma eqb_false_has_char x c s :
  has_char c (String x s) = false → Ascii.eqb x c = false ∧ has_char c s = false.
Proof. simpl. by intros [??]%orb_false_elim. Qed.

Lemma has_char_app c s r :
  has_char c (s +:+ r) = has_char c s || has_char c r.
Proof.
  induction s as [|x s IH]; [done|].
  rewrite str_app_cons. simpl. by rewrite IH, orb_assoc.
Qed.

(** [[^)]*] followed by [)] stops at the first closing parenthesis. *)
Lemma star_close body post :
  has_char ")" body = false →
  Re.star (Re.NotLit ")") match_close (body +:+ String ")" post)
  = Some (S (String.length body)).
Proof.
  induction body as [|x body IH]; [done|].
  intros [Hx Hbody]%eqb_false_has_char.
  rewrite str_app_cons. simpl. rewrite Hx. simpl.
  by rewrite IH.
Qed.

Lemma star_unclosed s :
  has_char ")" s = false → Re.star (Re.NotLit ")") match_close s = None.
Proof.
  induction s as [|x s IH]; [done|].
  intros [Hx Hs]%eqb_false_has_char. simpl.
  rewrite Hx. simpl. rewrite IH by done.
  unfold match_close. simpl. by rewrite Hx.
Qed.

Lemma match_star_close body post :
  has_char ")" body = false →
  Re.match_here Re.parens_star (String "(" (body +:+ String ")" post))
  = Some (S (S (String.length body))).
Proof.
  intros Hbody. unfold Re.parens_star. simpl.
  fold match_close. by rewrite star_close.
Qed.

Lemma match_star_unclosed r :
  has_char ")" r = false →
  Re.match_here Re.parens_star (String "(" r) = None.
Proof.
  intros Hr. unfold Re.parens_star. simpl. fold match_close.
  by rewrite star_unclosed.
Qed.

Lemma match_star_other x r :
  Ascii.eqb x "(" = false →
  Re.match_here Re.parens_star (String x r) = None.
Proof. intros Hx. unfold Re.parens_star. simpl. by rewrite Hx. Qed.

Lemma core_close x body post :
  Ascii.eqb x ")" = false → has_char ")" body = false →
  match_core (String "(" (String x body +:+ String ")" post))
  = Some (S (S (S (String.length body)))).
Proof.
  intros Hx Hbody. unfold match_core. rewrite str_app_cons. simpl.
  rewrite Hx. simpl. fold match_close. by rewrite star_close.
Qed.

Lemma core_empty post : match_core (String "(" (String ")" post)) = None.
Proof. reflexivity. Qed.

Lemma core_unclosed r :
  has_char ")" r = false → match_core (String "(" r) = None.
Proof.
  intros Hr. unfold match_core. simpl. destruct r as [|x r]; [done|].
  apply eqb_false_has_char in Hr as [Hx Hr]. rewrite Hx. simpl.
  fold match_close. by rewrite star_unclosed.
Qed.

Lemma core_other x r : Ascii.eqb x "(" = false → match_core (String x r) = None.
Proof. intros Hx. unfold match_core. simpl. by rewrite Hx. Qed.

Lemma core_nil : match_core "" = None.
Proof. reflexivity. Qed.

(** The whole pattern: an optional space, then the match_core. *)
Lemma match_plus_cons x r :
  Re.match_here Re.space_parens_plus (String x r)
  = if Ascii.eqb x " "
    then match match_core r with
         | Some n => Some (S n)
         | None => None
         end
    else match_core (String x r).
Proof.
  unfold Re.space_parens_plus.
  change (Re.match_here (Re.Opt (Re.Lit " ") :: ?p)) with
    (λ s, match s with
          | String x r =>
              if Re.cls_match (Re.Lit " ") x
              then match Re.match_here p r with
                   | Some n => Some (S n)
                   | None => Re.match_here p s
                   end
              else Re.match_here p s
          | EmptyString => Re.match_here p EmptyString
          end).
  fold match_core. simpl. destruct (Ascii.eqb_spec x " ") as [->|Hx]; [|done].
  destruct (match_core r); [done|]. by rewrite core_other.
Qed.

(** Passing over the characters of a match. *)
Lemma sub_go_skip p pre s :
  Re.sub_go p (String.length pre) (pre +:+ s) = Re.sub p s.
Proof. induction pre as [|x pre IH]; [by destruct s|]. by simpl. Qed.

(** *** The pattern of the clustering notebook *)

Lemma sub_star_prefix pre s :
  has_char "(" pre = false →
  Re.sub Re.parens_star (pre +:+ s) = pre +:+ Re.sub Re.parens_star s.
Proof.
  induction pre as [|x pre IH]; [done|].
  intros [Hx Hpre]%eqb_false_has_char.
  rewrite !str_app_cons. unfold Re.sub in *.
  change (Re.sub_go ?p 0 (String x ?r)) with
    (match Re.match_here p (String x r) with
     | Some (S k) => Re.sub_go p k r
     | _ => String x (Re.sub_go p 0 r)
     end).
  rewrite match_star_other by done. by rewrite IH.
Qed.

Lemma no_parenthesis_none s :
  has_char "(" s = false → no_parenthesis s = s.
Proof.
  intros Hs. unfold no_parenthesis.
  rewrite <-(str_app_nil_r s) at 1. rewrite sub_star_prefix by done.
  by rewrite str_app_nil_r.
Qed.

Lemma no_parenthesis_match pre body post :
  has_char "(" pre = false → has_char ")" body = false →
  no_parenthesis (pre +:+ "(" +:+ body +:+ ")" +:+ post)
  = pre +:+ no_parenthesis post.
Proof.
  intros Hpre Hbody. unfold no_parenthesis.
  rewrite sub_star_prefix by done. f_equal.
  rewrite !str_app_cons, !str_app_nil_l. unfold Re.sub at 1.
  change (Re.sub_go ?p 0 (String ?x ?r)) with
    (match Re.match_here p (String x r) with
     | Some (S k) => Re.sub_go p k r
     | _ => String x (Re.sub_go p 0 r)
     end).
  rewrite match_star_close by done.
  rewrite <-(sub_go_skip _ (body +:+ ")") post).
  f_equal.
  - clear. induction body as [|x body IH]; [done|].
    rewrite str_app_cons. simpl. by rewrite IH.
  - by rewrite str_app_assoc.
Qed.

Lemma sub_star_unclosed s :
  has_char ")" s = false → Re.sub Re.parens_star s = s.
Proof.
  induction s as [|x s IH]; [done|].
  intros Hxs. pose proof Hxs as [Hx Hs]%eqb_false_has_char.
  unfold Re.sub in *.
  change (Re.sub_go ?p 0 (String x ?r)) with
    (match Re.match_here p (String x r) with
     | Some (S k) => Re.sub_go p k r
     | _ => String x (Re.sub_go p 0 r)
     end).
  destruct (Ascii.eqb_spec x "(") as [->|Hne].
  - rewrite match_star_unclosed by done. by rewrite IH.
  - rewrite match_star_other by (by apply Ascii.eqb_neq). by rewrite IH.
Qed.

Lemma no_parenthesis_unclosed pre r :
  has_char "(" pre = false → has_char ")" r = false →
  no_parenthesis (pre +:+ "(" +:+ r) = pre +:+ "(" +:+ r.
Proof.
  intros Hpre Hr. unfold no_parenthesis.
  rewrite sub_star_prefix by done. f_equal.
  apply sub_star_unclosed. rewrite has_char_app. by rewrite Hr.
Qed.

(** *** The pattern of the association notebook *)

Lemma core_no_close s : has_char ")" s = false → match_core s = None.
Proof.
  destruct s as [|y r]; [done|]. intros Hs.
  destruct (Ascii.eqb_spec y "(") as [->|Hne].
  - apply core_unclosed. by apply eqb_false_has_char in Hs as [_ ?].
  - by apply core_other, Ascii.eqb_neq.
Qed.

Lemma sub_plus_step x r :
  Re.sub Re.space_parens_plus (String x r)
  = match Re.match_here Re.space_parens_plus (String x r) with
    | Some (S k) => Re.sub_go Re.space_parens_plus k r
    | _ => String x (Re.sub Re.space_parens_plus r)
    end.
Proof. reflexivity. Qed.

(** A prefix without an opening parenthesis is copied, unless its last
    character is a space that belongs to a match. *)
Lemma sub_plus_prefix pre s :
  has_char "(" pre = false →
  match_core s = None ∨ (∀ p, pre ≠ p +:+ " ") →
  Re.sub Re.space_parens_plus (pre +:+ s)
  = pre +:+ Re.sub Re.space_parens_plus s.
Proof.
  induction pre as [|x pre IH]; [done|].
  intros [Hx Hpre]%eqb_false_has_char Hend.
  rewrite !str_app_cons, sub_plus_step, match_plus_cons.
  assert (match_core (String x (pre +:+ s)) = None) as Hcore by (by apply core_other).
  assert (Ascii.eqb x " " = true → match_core (pre +:+ s) = None) as Hsp.
  { intros ->%Ascii.eqb_eq. destruct pre as [|y pre].
    - destruct Hend as [?|Hend]; [done|]. by destruct (Hend "").
    - rewrite str_app_cons. apply core_other.
      by apply eqb_false_has_char in Hpre as [? _]. }
  rewrite IH; [|done|].
  - destruct (Ascii.eqb x " "); [by rewrite Hsp|by rewrite Hcore].
  - destruct Hend as [?|Hend]; [by left|right].
    intros p ->. by apply (Hend (String x p)).
Qed.

Lemma remove_parentheses_none s :
  has_char "(" s = false → Association.remove_parentheses s = s.
Proof.
  intros Hs. unfold Association.remove_parentheses.
  rewrite <-(str_app_nil_r s) at 1. rewrite sub_plus_prefix; [|done|by left].
  by rewrite str_app_nil_r.
Qed.

Lemma length_snoc body x :
  String.length (body +:+ String x "") = S (String.length body).
Proof.
  induction body as [|y body IH]; [done|].
  rewrite str_app_cons. simpl. by rewrite IH.
Qed.

(** A parenthesised text with content, matched from its opening
    parenthesis. *)
Lemma sub_plus_open body post :
  body ≠ "" → has_char ")" body = false →
  Re.sub Re.space_parens_plus ("(" +:+ body +:+ ")" +:+ post)
  = Re.sub Re.space_parens_plus post.
Proof.
  intros Hne Hbody. destruct body as [|x body]; [done|].
  apply eqb_false_has_char in Hbody as [Hx Hbody].
  rewrite !str_app_cons, !str_app_nil_l, sub_plus_step, match_plus_cons.
  simpl Ascii.eqb. cbv iota.
  rewrite <-str_app_cons, core_close by done.
  rewrite <-(sub_go_skip _ (String x body +:+ ")") post).
  f_equal.
  - simpl. by rewrite length_snoc.
  - by rewrite str_app_assoc.
Qed.

(** The same with the space before the opening parenthesis. *)
Lemma sub_plus_space_open body post :
  body ≠ "" → has_char ")" body = false →
  Re.sub Re.space_parens_plus (" (" +:+ body +:+ ")" +:+ post)
  = Re.sub Re.space_parens_plus post.
Proof.
  intros Hne Hbody. destruct body as [|x body]; [done|].
  apply eqb_false_has_char in Hbody as [Hx Hbody].
  rewrite !str_app_cons, !str_app_nil_l, sub_plus_step, match_plus_cons.
  simpl Ascii.eqb. cbv iota.
  rewrite <-str_app_cons, core_close by done.
  rewrite <-(sub_go_skip _ ("(" +:+ String x body +:+ ")") post).
  f_equal.
  - rewrite !str_app_cons, str_app_nil_l. simpl. by rewrite length_snoc.
  - change ("(" +:+ String x body +:+ ")")
      with (String "(" (String x body +:+ ")")).
    by rewrite (str_app_cons "("), str_app_assoc.
Qed.

Lemma remove_parentheses_match pre body post :
  has_char "(" pre = false → (∀ p, pre ≠ p +:+ " ") →
  body ≠ "" → has_char ")" body = false →
  Association.remove_parentheses (pre +:+ "(" +:+ body +:+ ")" +:+ post)
  = pre +:+ Association.remove_parentheses post.
Proof.
  intros Hpre Hend Hne Hbody. unfold Association.remove_parentheses.
  rewrite sub_plus_prefix; [|done|by right].
  by rewrite sub_plus_open.
Qed.

Lemma remove_parentheses_space_match pre body post :
  has_char "(" pre = false → body ≠ "" → has_char ")" body = false →
  Association.remove_parentheses (pre +:+ " (" +:+ body +:+ ")" +:+ post)
  = pre +:+ Association.remove_parentheses post.
Proof.
  intros Hpre Hne Hbody. unfold Association.remove_parentheses.
  rewrite sub_plus_prefix; [|done|by left].
  by rewrite sub_plus_space_open.
Qed.

(** Parentheses without content are kept. *)
Lemma remove_parentheses_empty pre post :
  has_char "(" pre = false →
  Association.remove_parentheses (pre +:+ "()" +:+ post)
  = pre +:+ "()" +:+ Association.remove_parentheses post.
Proof.
  intros Hpre. unfold Association.remove_parentheses.
  rewrite sub_plus_prefix; [|done|by left]. done.
Qed.

Lemma sub_plus_unclosed s :
  has_char ")" s = false → Re.sub Re.space_parens_plus s = s.
Proof.
  induction s as [|x s IH]; [done|].
  intros Hxs. pose proof Hxs as [Hx Hs]%eqb_false_has_char.
  rewrite sub_plus_step, match_plus_cons.
  rewrite (core_no_close s), (core_no_close (String x s)) by done.
  rewrite IH by done. by destruct (Ascii.eqb x " ").
Qed.

Lemma remove_parentheses_unclosed pre r :
  has_char "(" pre = false → has_char ")" r = false →
  Association.remove_parentheses (pre +:+ "(" +:+ r) = pre +:+ "(" +:+ r.
Proof.
  intros Hpre Hr. unfold Association.remove_parentheses.
  rewrite sub_plus_prefix; [|done|left].
  - f_equal. apply sub_plus_unclosed. rewrite has_char_app. by rewrite Hr.
  - by apply core_unclosed.
Qed.

End parentheses.

(** ** The first option and the trimming *)

Section first_option.
Implicit Types (s t sep cur pre post : string).

Lemma prefix_iff sep s : String.prefix sep s = true ↔ ∃ t, s = sep +:+ t.
Proof.
  revert s. induction sep as [|c sep IH]; intros [|x s]; simpl.
  - split; [by exists ""|done].
  - split; [by exists (String x s)|done].
  - split; [done|]. by intros [??].
  - destruct (ascii_dec c x) as [->|Hne].
    + rewrite IH. split; intros [t Ht]; exists t.
      * by rewrite str_app_cons, Ht.
      * rewrite str_app_cons in Ht. congruence.
    + split; [done|]. intros [t Ht]. rewrite str_app_cons in Ht. congruence.
Qed.

Lemma split_sep_go_cons sep cur x r :
  Py.split_sep_go sep 0 cur (String x r)
  = if String.prefix sep (String x r)
    then cur :: Py.split_sep_go sep (String.length sep - 1) EmptyString r
    else Py.split_sep_go sep 0 (cur +:+ String x EmptyString) r.
Proof. reflexivity. Qed.

Lemma item0_split_none sep cur s :
  ¬ occurs_in sep s →
  Py.item0 (Py.split_sep_go sep 0 cur s) = cur +:+ s.
Proof.
  revert cur. induction s as [|x s IH]; intros cur Hocc.
  - by rewrite str_app_nil_r.
  - rewrite split_sep_go_cons.
    destruct (String.prefix sep (String x s)) eqn:Hpre.
    + destruct Hocc. apply prefix_iff in Hpre as [t ->]. by exists "", t.
    + rewrite IH, str_app_snoc_cons; [done|].
      intros (a & b & ->). apply Hocc. by exists (String x a), b.
Qed.

Lemma item0_split_first sep cur s pre :
  sep ≠ "" → first_at sep s pre →
  Py.item0 (Py.split_sep_go sep 0 cur s) = cur +:+ pre.
Proof.
  intros Hsep. revert cur s.
  induction pre as [|x pre IH]; intros cur s (post & -> & Hfirst).
  - rewrite str_app_nil_l, str_app_nil_r.
    destruct sep as [|c sep]; [done|].
    rewrite str_app_cons, split_sep_go_cons.
    assert (String.prefix (String c sep) (String c (sep +:+ post)) = true)
      as ->; [|done].
    apply prefix_iff. by exists post.
  - rewrite str_app_cons, split_sep_go_cons.
    destruct (String.prefix sep _) eqn:Hpre.
    + apply prefix_iff in Hpre as [t Ht].
      specialize (Hfirst "" t). rewrite str_app_cons in Hfirst.
      specialize (Hfirst Ht). simpl in Hfirst. lia.
    + rewrite (IH _ (pre +:+ sep +:+ post)), str_app_snoc_cons; [done|].
      exists post. split; [done|]. intros a b Hab.
      specialize (Hfirst (String x a) b). rewrite !str_app_cons in Hfirst.
      rewrite Hab in Hfirst. specialize (Hfirst eq_refl).
      simpl in Hfirst. lia.
Qed.

Lemma split_sep_first_segment sep :
  sep ≠ "" → keeps_first_segment sep (λ s, Py.item0 (Py.split_sep sep s)).
Proof.
  intros Hsep. split.
  - intros s Hs. unfold Py.split_sep. by rewrite item0_split_none.
  - intros s pre Hs. unfold Py.split_sep.
    by rewrite (item0_split_first sep "" s pre).
Qed.

Lemma str_rev_app s t : String.rev (s +:+ t) = String.rev t +:+ String.rev s.
Proof.
  induction s as [|x s IH].
  - by rewrite str_app_nil_l, str_app_nil_r.
  - by rewrite str_app_cons, !str_rev_cons, IH, str_app_assoc.
Qed.

Lemma blank_rev s : Py.blank (String.rev s) = Py.blank s.
Proof.
  induction s as [|x s IH]; [done|].
  rewrite str_rev_cons, blank_app, IH. simpl.
  by destruct (Py.blank s), (Py.isspace x).
Qed.

Lemma lstrip_spec s :
  ∃ l, Py.blank l ∧ s = l +:+ Py.lstrip s
       ∧ ∀ c r, Py.lstrip s = String c r → Py.isspace c = false.
Proof.
  induction s as [|x s (l & Hl & Hs & Hfirst)].
  - by exists "".
  - simpl. destruct (Py.isspace x) eqn:Hx.
    + exists (String x l). split_and!; [|by rewrite str_app_cons, <-Hs|done].
      simpl. by rewrite Hx.
    + exists "". split_and!; [done..|]. by intros c r [= <- <-].
Qed.

Lemma rstrip_spec s :
  ∃ r, Py.blank r ∧ s = Py.rstrip s +:+ r
       ∧ ∀ t c, Py.rstrip s = t +:+ String c "" → Py.isspace c = false.
Proof.
  unfold Py.rstrip.
  destruct (lstrip_spec (String.rev s)) as (l & Hl & Hs & Hfirst).
  exists (String.rev l). split_and!.
  - by rewrite blank_rev.
  - by rewrite <-str_rev_app, <-Hs, str_rev_involutive.
  - intros t c Ht. apply (Hfirst c (String.rev t)).
    by rewrite <-(str_rev_involutive (Py.lstrip _)), Ht, str_rev_snoc.
Qed.

Lemma strip_trimmed s : trimmed s (Py.strip s).
Proof.
  unfold Py.strip.
  destruct (lstrip_spec s) as (l & Hl & Hs & Hfirst).
  destruct (rstrip_spec (Py.lstrip s)) as (r & Hr & Ht & Hlast).
  split_and!; [|intros c t Hc|done].
  - exists l, r. split_and!; [done..|]. by rewrite <-Ht.
  - rewrite Hc in Ht. rewrite str_app_cons in Ht. by apply (Hfirst c _ Ht).
Qed.

End first_option.

(** * The claims *)

(** ** C1: the per-ingredient pipeline and the component expansion *)

Section claim_C1.
Context {tagger : Tagger} {lexicon : Lexicon} {data : Association.Data}.

Lemma break_down_ingredient_expansion phrase :
  Association.break_down_ingredient phrase
  = expansion Association.ingredient_components phrase.
Proof.
  unfold Association.break_down_ingredient, expansion, Py.get.
  by destruct (Association.ingredient_components !! phrase) as [[]|].
Qed.

Lemma preprocess_ingredient_expansion raw :
  value_strings (preprocess_ingredient raw)
  = expansion phrase_synonyms (unique_terms raw).
Proof.
  unfold preprocess_ingredient, handle_phrase_synonym, expansion, Py.get.
  by destruct (phrase_synonyms !! unique_terms raw) as [[]|].
Qed.

Lemma keep_nonempty_app f x y :
  Association.keep_nonempty f (x ++ y)
  = Association.keep_nonempty f x ++ Association.keep_nonempty f y.
Proof.
  unfold Association.keep_nonempty. by rewrite fmap_app, filter_app.
Qed.

Lemma keep_nonempty_singleton f raw :
  Association.keep_nonempty f [raw]
  = if Py.truthy (f raw) then [f raw] else [].
Proof.
  unfold Association.keep_nonempty. simpl. rewrite filter_cons.
  by destruct (f raw).
Qed.

Lemma components_app x y :
  Association.components (x ++ y)
  = Association.components x ++ Association.components y.
Proof.
  unfold Association.components, Association.standardized_phrase,
    Association.unique, Association.standardized_word,
    Association.filtered, Association.lemmatized, Association.cleaned.
  by rewrite !keep_nonempty_app, flat_map_app.
Qed.

Lemma preprocess_ingredient_lookup raw :
  preprocess_ingredient raw
  = default (Py.Str (unique_terms raw)) (phrase_synonyms !! unique_terms raw).
Proof. done. Qed.

Lemma components_singleton raw :
  Association.components [raw]
  = flat_map Association.break_down_ingredient
      (Association.standardized_phrase [raw]).
Proof. done. Qed.

(** One raw ingredient through the columns of the association notebook:
    it reaches the last column when no stage returns the empty string. *)
Lemma standardized_phrase_one raw :
  Association.standardized_phrase [raw]
  = let cleaned := Association.clean_ingredient raw in
    let lemmatized := Association.lemmatize_nouns cleaned in
    let filtered := Association.filter_stopwords lemmatized in
    let standardized_word :=
      Association.standardize_at_word_level filtered in
    let unique := Association.remove_duplicates standardized_word in
    let standardized_phrase :=
      default unique (Association.thesaurus !! unique) in
    if forallb Py.truthy [cleaned; lemmatized; filtered; standardized_word;
                          unique; standardized_phrase]
    then [standardized_phrase] else [].
Proof.
  unfold Association.standardized_phrase, Association.unique,
    Association.standardized_word, Association.filtered,
    Association.lemmatized, Association.cleaned. simpl.
  rewrite (keep_nonempty_singleton Association.clean_ingredient).
  destruct (Py.truthy (Association.clean_ingredient raw)); [|done]. simpl.
  rewrite (keep_nonempty_singleton Association.lemmatize_nouns).
  destruct (Py.truthy (Association.lemmatize_nouns _)); [|done]. simpl.
  rewrite (keep_nonempty_singleton Association.filter_stopwords).
  destruct (Py.truthy (Association.filter_stopwords _)); [|done]. simpl.
  rewrite (keep_nonempty_singleton Association.standardize_at_word_level).
  destruct (Py.truthy (Association.standardize_at_word_level _)); [|done].
  simpl.
  rewrite (keep_nonempty_singleton Association.remove_duplicates).
  destruct (Py.truthy (Association.remove_duplicates _)); [|done]. simpl.
  rewrite (keep_nonempty_singleton Association.standardize_at_phrase_level).
  unfold Association.standardize_at_phrase_level, Py.get.
  rewrite andb_true_r.
  by destruct (Association.thesaurus !! _).
Qed.

(** C1 (amended). For every raw ingredient string the pipeline returns a
    possibly empty sequence of strings that one lookup decides: a sequence
    entry is taken verbatim, a string entry gives that single string, no
    entry gives the key unchanged, and nothing is looked up a second time.
    In the clustering notebook ([preprocess_ingredient] as flattened by
    [clean_ingredients]) the key is the deduplicated string, the result of
    the text cleaning, the noun lemmas, the stopword filter, the word
    synonyms and the removal of duplicates in this order, and the table is
    [phrase_synonyms]: there is no separate phrase resolution before the
    expansion.  In the association notebook the key is the phrase-resolved
    string, the entry of the deduplicated string in the thesaurus or that
    string itself, looked up in [ingredient_components] by
    [break_down_ingredient], provided that none of the six stages before
    returned the empty string; otherwise the ingredient contributes
    nothing. *)
Theorem C1_ingredient_pipeline :
  let deduplicated raw :=
    remove_duplicates (handle_word_synonym (filter_stopwords
      (lemmatize_valid_nouns
         (Py.strip (Py.lower (Py.item0 (Py.split_sep " or "
            (Re.sub Re.parens_star raw)))))))) in
  let cleaned := Association.clean_ingredient in
  let lemmatized raw := Association.lemmatize_nouns (cleaned raw) in
  let filtered raw := Association.filter_stopwords (lemmatized raw) in
  let standardized_word raw :=
    Association.standardize_at_word_level (filtered raw) in
  let unique raw := Association.remove_duplicates (standardized_word raw) in
  let phrase_resolved raw :=
    default (unique raw) (Association.thesaurus !! unique raw) in
  let reaches raw :=
    forallb Py.truthy [cleaned raw; lemmatized raw; filtered raw;
                       standardized_word raw; unique raw;
                       phrase_resolved raw] in
  (∀ raw,
     preprocess_ingredient raw
     = default (Py.Str (deduplicated raw))
               (phrase_synonyms !! deduplicated raw))
  ∧ (∀ raw acc,
       collect_step acc raw
       = acc ++ expansion phrase_synonyms (deduplicated raw))
  ∧ (∀ ingredients,
       clean_ingredients ingredients
       = Py.sorted (elements (list_to_set (filter Py.truthy
           (flat_map (λ raw, expansion phrase_synonyms (deduplicated raw))
                     ingredients)) : gset string)))
  ∧ (∀ phrase,
       Association.break_down_ingredient phrase
       = expansion Association.ingredient_components phrase)
  ∧ (∀ x,
       Association.components x
       = flat_map
           (λ raw, if reaches raw
                   then expansion Association.ingredient_components
                          (phrase_resolved raw)
                   else [])
           x)
  ∧ (∀ table phrase,
       (∀ l, table !! phrase = Some (Py.Lst l) → expansion table phrase = l)
       ∧ (∀ s, table !! phrase = Some (Py.Str s) →
               expansion table phrase = [s])
       ∧ (table !! phrase = None → expansion table phrase = [phrase])).
Proof.
  intros deduplicated cleaned lemmatized filtered standardized_word unique
    phrase_resolved reaches.
  assert (∀ raw, deduplicated raw = unique_terms raw) as Hkey by done.
  split_and!.
  - intros raw. by rewrite Hkey, preprocess_ingredient_lookup.
  - intros raw acc.
    by rewrite Hkey, collect_step_strings, preprocess_ingredient_expansion.
  - intros ingredients. unfold clean_ingredients, clean_ingredients_iter.
    rewrite collect_loop, app_nil_l. do 4 f_equal.
    induction ingredients as [|raw ingredients IH]; [done|].
    simpl. by rewrite Hkey, preprocess_ingredient_expansion, IH.
  - apply break_down_ingredient_expansion.
  - induction x as [|raw x IH]; [done|].
    change (raw :: x) with ([raw] ++ x).
    rewrite components_app, flat_map_app, IH. f_equal.
    rewrite components_singleton, standardized_phrase_one. cbv zeta.
    change (forallb Py.truthy _) with (reaches raw).
    simpl (flat_map _ [raw]). rewrite app_nil_r.
    destruct (reaches raw); [|done].
    simpl (flat_map _ [_]).
    by rewrite app_nil_r, break_down_ingredient_expansion.
  - intros table phrase. unfold expansion.
    split_and!; [intros l ->|intros s ->|intros ->]; done.
Qed.
End claim_C1.

(** The expansion stops after one lookup: "soy sauce" has an entry of its
    own and is returned as it is; an entry that maps to the empty sequence
    gives no component; a raw ingredient dropped by an earlier stage gives
    none either. *)
Example components_one_level :
  Association.components (tagger := Demo.tagger) (data := Demo.data)
    ["1 cup Adobo Sauce (homemade)"; "2 cups water"; "12"; "3 kalamansi"]
  = ["soy sauce"; "vinegar"; "calamansi"].
Proof. by vm_compute. Qed.

(** C1, on a raw line whose deduplicated string "adobo sauce" has a
    sequence entry, after a line whose only token is a number. *)
Lemma C1_witness :
  clean_ingredients (tagger := Demo.tagger) (lexicon := Demo.lexicon)
    ["12"; "1 cup Adobo Sauce (homemade) or 2 cups Soy Sauce"]
  = ["toyo"; "vinegar"].
Proof.
  refine (eq_trans
            (proj1 (proj2 (proj2
               (@C1_ingredient_pipeline Demo.tagger Demo.lexicon Demo.data)))
               ["12"; "1 cup Adobo Sauce (homemade) or 2 cups Soy Sauce"])
            _).
  vm_compute. reflexivity.
Defined.

(** The claim as it stands fails for [preprocess_ingredient]: "2 sarsa" is
    resolved at phrase level to "adobo sauce", which has a sequence entry
    in the only table of the clustering notebook, and the recipe gets
    "adobo sauce", not the sequence. *)
Lemma C1_counterexample :
  preprocess_ingredient (tagger := Demo.tagger) (lexicon := Demo.nested)
    "2 sarsa"
  = Py.Str "adobo sauce"
  ∧ @phrase_synonyms Demo.nested !! "adobo sauce"
    = Some (Py.Lst ["soy sauce"; "vinegar"])
  ∧ clean_ingredients (tagger := Demo.tagger) (lexicon := Demo.nested)
      ["2 sarsa"]
    = ["adobo sauce"]
  ∧ clean_ingredients (tagger := Demo.tagger) (lexicon := Demo.nested)
      ["2 sarsa"]
    ≠ ["soy sauce"; "vinegar"].
Proof.
  split_and!; [vm_compute; reflexivity..|].
  vm_compute. discriminate.
Qed.

(** ** C2: the contract on [cleaned_ingredients] *)

Section claim_C2.
Context {tagger : Tagger} {lexicon : Lexicon} {config : Config}.

Lemma contract_clean_ingredients ingredients :
  contract (clean_ingredients ingredients).
Proof.
  pose proof (clean_ingredients_ascending ingredients) as Hasc.
  split_and!.
  - by apply ascending_Sorted.
  - by apply ascending_NoDup.
  - by intros [? _]%elem_of_clean_ingredients.
  - intros x. apply clean_ingredients_blank.
Qed.

Lemma contract_filter (P : string → Prop) `{!∀ x, Decision (P x)} c :
  contract c → contract (filter P c).
Proof.
  intros (Hs & Hnd & Hne & Hb).
  pose proof (ascending_filter P c (Sorted_NoDup_ascending c Hs Hnd)) as Hasc.
  split_and!.
  - by apply ascending_Sorted.
  - by apply ascending_NoDup.
  - by intros [_ ?]%list_elem_of_filter.
  - intros x [_ Hx]%list_elem_of_filter. by apply Hb.
Qed.

Lemma contract_recipe_df recipes row :
  row ∈ recipe_df recipes → contract (cleaned_ingredients row).
Proof.
  unfold recipe_df. intros ([n i] & -> & _)%list_elem_of_fmap.
  apply contract_clean_ingredients.
Qed.

Lemma contract_reduced_common recipes row :
  row ∈ reduced_common (recipe_df recipes) →
  contract (cleaned_ingredients row).
Proof.
  intros (r & Hr & _ & _ & ->)%elem_of_apply_cleaned.
  by apply contract_filter, (contract_recipe_df recipes).
Qed.

Lemma contract_reduced_rare recipes row :
  row ∈ reduced_rare (recipe_df recipes) →
  contract (cleaned_ingredients row).
Proof.
  intros (r & Hr & _ & _ & ->)%elem_of_apply_cleaned.
  by apply contract_filter, (contract_reduced_common recipes).
Qed.

(** At least one value of the phrase thesaurus is blank here, and it
    reaches [cleaned_ingredients]: only empty strings are filtered out. *)
Lemma C2_counterexample :
  cleaned_ingredients
    <$> recipe_df (tagger := Demo.tagger) (lexicon := Demo.blanking)
          [{| name := "tubig"; ingredients := Some ["water"] |}]
  = [[" "]]
  ∧ Py.blank " " = true ∧ " " ≠ "".
Proof. split_and!; [by vm_compute|done..]. Qed.

(** C2 (amended). At every point after the aggregator has assigned it
    (after the removal of the common ingredients, of the rare ingredients
    and after the size filter), [cleaned_ingredients] is in ascending
    code-point order, has no duplicate and no empty string; a blank string
    occurs in it only if it is a value of the phrase thesaurus. *)
Theorem C2_cleaned_ingredients_contract recipes row :
  row ∈ recipe_df recipes
  ∨ row ∈ reduced_common (recipe_df recipes)
  ∨ row ∈ reduced_rare (recipe_df recipes)
  ∨ row ∈ reduced_df recipes →
  Sorted String.le (cleaned_ingredients row)
  ∧ NoDup (cleaned_ingredients row)
  ∧ ("" ∉ cleaned_ingredients row)
  ∧ ∀ x, x ∈ cleaned_ingredients row → Py.blank x →
         ∃ k v, phrase_synonyms !! k = Some v ∧ x ∈ value_strings v.
Proof.
  intros [H|[H|[H|H]]].
  - by apply (contract_recipe_df recipes).
  - by apply (contract_reduced_common recipes).
  - by apply (contract_reduced_rare recipes).
  - apply (contract_reduced_rare recipes).
    unfold reduced_df, size_filter in H.
    by apply list_elem_of_filter in H as [_ ?].
Qed.
End claim_C2.

(** C2, at a recipe of a small corpus. *)
Lemma C2_witness :
  let recipes :=
    [{| name := "sinigang";
        ingredients := Some ["2 cups Soy Sauce (dark)"; "3 kalamansi";
                             "small lemon lemons or 6 to 7 pieces calamansi"] |}] in
  let row := {| row_name := "sinigang";
                row_ingredients := ["2 cups Soy Sauce (dark)"; "3 kalamansi";
                                    "small lemon lemons or 6 to 7 pieces calamansi"];
                cleaned_ingredients := ["calamansi"; "lemon"; "toyo"] |} in
  Sorted String.le (cleaned_ingredients row)
  ∧ NoDup (cleaned_ingredients row)
  ∧ ("" ∉ cleaned_ingredients row)
  ∧ ∀ x, x ∈ cleaned_ingredients row → Py.blank x →
         ∃ k v, @phrase_synonyms Demo.lexicon !! k = Some v
                ∧ x ∈ value_strings v.
Proof.
  intros recipes row.
  apply (@C2_cleaned_ingredients_contract
           Demo.tagger Demo.lexicon notebook_config recipes row).
  left. vm_compute. left.
Defined.

(** ** C3: the removal of rare and of common ingredients *)

Section claim_C3.
Context {config : Config}.



End claim_C3.

(** A corpus in which "bagoong" is in exactly five recipes and "kamias" in
    six: with the thresholds of the notebook the first is removed and the
    second is kept. *)
Example frequency_threshold :
  let row n c := {| row_name := n; row_ingredients := [];
                    cleaned_ingredients := c |} in
  let df := [row "a" ["bagoong"; "kamias"]; row "b" ["bagoong"; "kamias"];
             row "c" ["bagoong"; "kamias"]; row "d" ["bagoong"; "kamias"];
             row "e" ["bagoong"; "kamias"; "salt"]; row "f" ["kamias"]] in
  corpus_count df "bagoong" = 5 ∧ corpus_count df "kamias" = 6
  ∧ cleaned_ingredients <$> reduced_rare (config := notebook_config) df
    = [["kamias"]; ["kamias"]; ["kamias"]; ["kamias"]; ["kamias"]; ["kamias"]].
Proof. by vm_compute. Qed.


(** ** C4: the frequency table counts recipes *)

Section claim_C4.
Context {tagger : Tagger} {lexicon : Lexicon}.

(** C4. The frequency table built from the aggregated recipes maps an
    ingredient to the number of its occurrences in the exploded column,
    which is the number of recipes whose [cleaned_ingredients] contain it,
    as no recipe repeats an ingredient; an ingredient of no recipe has no
    entry. *)
Theorem C4_frequency_table (recipes : list Recipe) (i : string) :
  let df := recipe_df recipes in
  Forall (λ r, NoDup (cleaned_ingredients r)) df
  ∧ occurrences i (explode (cleaned_ingredients <$> df))
    = recipes_containing i df
  ∧ counts df !! i = match recipes_containing i df with
                     | 0 => None
                     | S n => Some (S n)
                     end.
Proof.
  intros df.
  assert (Forall (λ r, NoDup (cleaned_ingredients r)) df) as Hnd.
  { apply Forall_forall. intros r ([n c] & -> & _)%list_elem_of_fmap.
    apply ascending_NoDup, clean_ingredients_ascending. }
  split_and!; [done| |].
  - by rewrite <-corpus_count_occurrences, corpus_count_recipes.
  - rewrite counts_lookup.
    by rewrite <-corpus_count_occurrences, corpus_count_recipes.
Qed.
End claim_C4.

(** Without the set of the aggregator the table would count occurrences:
    a column that repeats an ingredient inside one recipe counts it twice. *)
Example counts_occurrences_with_repetition :
  let df := [{| row_name := "a"; row_ingredients := [];
                cleaned_ingredients := ["suka"; "suka"] |}] in
  counts df !! "suka" = Some 2 ∧ recipes_containing "suka" df = 1.
Proof. by vm_compute. Qed.

(** ** C7: the recipe-size filter *)

Section claim_C7.
Context {tagger : Tagger} {lexicon : Lexicon} {config : Config}.

(** C7. A recipe survives the size filter iff the number of its
    [cleaned_ingredients] lies between [MIN_INGREDIENT] and
    [MAX_INGREDIENT], both included; the survivors keep their order.  In the
    frame the notebook ends with, no recipe repeats an ingredient, so the
    length bounded is the number of distinct ingredients. *)
Theorem C7_size_filter (reduced : list Row) (row : Row) :
  (row ∈ size_filter reduced
   ↔ row ∈ reduced
     ∧ MIN_INGREDIENT ≤ length (cleaned_ingredients row)
     ∧ length (cleaned_ingredients row) ≤ MAX_INGREDIENT)
  ∧ size_filter reduced `sublist_of` reduced
  ∧ (∀ recipes,
       row ∈ reduced_df recipes →
       row ∈ reduced_rare (recipe_df recipes)
       ∧ NoDup (cleaned_ingredients row)
       ∧ MIN_INGREDIENT ≤ length (cleaned_ingredients row)
       ∧ length (cleaned_ingredients row) ≤ MAX_INGREDIENT).
Proof.
  unfold reduced_df, size_filter. split_and!.
  - rewrite list_elem_of_filter. tauto.
  - apply sublist_filter.
  - intros recipes [[??] Hrow]%list_elem_of_filter. split_and!; [done| |done..].
    by destruct (contract_reduced_rare recipes row Hrow) as (_ & ? & _).
Qed.
End claim_C7.

(** With the bounds of the notebook, recipes of 3 and of 10 ingredients are
    dropped, recipes of 4 and of 9 are kept. *)
Example size_filter_bounds :
  let row n := {| row_name := ""; row_ingredients := [];
                  cleaned_ingredients := replicate n "x" |} in
  size_filter (config := notebook_config) [row 3; row 4; row 9; row 10]
  = [row 4; row 9].
Proof. by vm_compute. Qed.

(** C7, at a recipe of four ingredients. *)
Lemma C7_witness :
  let row n := {| row_name := ""; row_ingredients := [];
                  cleaned_ingredients := replicate n "x" |} in
  row 4 ∈ size_filter (config := notebook_config) [row 3; row 4; row 10].
Proof.
  intros row.
  refine (proj2 (proj1 (@C7_size_filter Demo.tagger Demo.lexicon
                          notebook_config [row 3; row 4; row 10] (row 4))) _).
  split; [|simpl; lia]. right. left.
Defined.

(** ** C5: the text cleaner *)

(** The inline pattern of [preprocess_ingredient] leaves the space before
    the parenthesis; the pattern of [remove_parentheses] leaves parentheses
    without content. *)
Lemma C5_counterexample :
  no_parenthesis "1 cup flour (all-purpose)" = "1 cup flour "
  ∧ no_parenthesis "1 cup flour (all-purpose)" ≠ "1 cup flour"
  ∧ Association.remove_parentheses "salt ()" = "salt ()"
  ∧ Association.clean_ingredient "salt ()" = "salt ()".
Proof. by vm_compute. Qed.

(** C5 (amended). [clean_ingredient] performs, in order: the removal of
    every parenthesised text with content together with one space right
    before it, the choice of the text before the first [" or "], the
    lower-casing and the trimming.  The first lines of
    [preprocess_ingredient] do the same with another pattern: parentheses
    without content are deleted too and the space before a parenthesis is
    kept.  Both accept every string and may return the empty string. *)
Theorem C5_text_cleaner :
  (∀ s, Association.clean_ingredient s
        = Py.strip (Py.lower (Association.select_first_option
                                (Association.remove_parentheses s))))
  ∧ deletes_parenthesized_content Association.remove_parentheses
  ∧ keeps_first_segment " or " Association.select_first_option
  ∧ (∀ s, trimmed s (Py.strip s))
  ∧ Association.remove_parentheses "1 cup flour (all-purpose)" = "1 cup flour"
  ∧ Association.clean_ingredient "(optional)" = ""
  ∧ (∀ s, formatted s
          = Py.strip (Py.lower (Py.item0 (Py.split_sep " or "
                                            (no_parenthesis s)))))
  ∧ deletes_parenthesized no_parenthesis
  ∧ no_parenthesis "1 cup flour (all-purpose)" = "1 cup flour "
  ∧ formatted "(optional)" = "".
Proof.
  split_and!; try done.
  - split_and!.
    + apply remove_parentheses_none.
    + apply remove_parentheses_match.
    + apply remove_parentheses_space_match.
    + apply remove_parentheses_empty.
    + apply remove_parentheses_unclosed.
  - by apply split_sep_first_segment.
  - apply strip_trimmed.
  - split_and!.
    + apply no_parenthesis_none.
    + apply no_parenthesis_match.
    + apply no_parenthesis_unclosed.
Qed.

(** The rules of C5 at "1 cup Flour (all-purpose) or Rice". *)
Lemma C5_witness :
  Association.remove_parentheses "1 cup Flour (all-purpose) or Rice"
  = "1 cup Flour" +:+ Association.remove_parentheses " or Rice"
  ∧ Association.select_first_option "1 cup Flour or Rice" = "1 cup Flour".
Proof.
  destruct C5_text_cleaner as (_ & (_ & _ & Hsp & _) & (_ & Hfirst) & _).
  split.
  - apply (Hsp "1 cup Flour" "all-purpose" " or Rice"); done.
  - apply Hfirst. exists "Rice". split; [done|].
    intros a b Hab.
    destruct a as [|c0 [|c1 [|c2 [|c3 [|c4 [|c5 [|c6 [|c7 [|c8 [|c9 [|c10 a]]]]]]]]]]];
      simpl; try lia; discriminate Hab.
Defined.

(** ** C6: re-running the aggregator *)

(** The word thesaurus maps "sili" to "chili" and "chili" to "pepper": the
    second run does not give the tokens of the first. *)
Lemma C6_counterexample :
  clean_ingredients (tagger := Demo.tagger) (lexicon := Demo.chained) ["sili"]
  = ["chili"]
  ∧ clean_ingredients (tagger := Demo.tagger) (lexicon := Demo.chained)
      ["chili"]
    = ["pepper"]
  ∧ ¬ (∀ x : string, x ∈ ["pepper"] ↔ x ∈ ["chili"]).
Proof.
  split_and!; [vm_compute; reflexivity..|]. intros Hset.
  assert ("pepper" ∈ ["chili"]) as Hin by (apply Hset; set_solver).
  by apply list_elem_of_singleton in Hin.
Qed.

Section claim_C6.
Context {tagger : Tagger} {lexicon : Lexicon}.

(** C6 (amended). Re-running the aggregator on a recipe's own
    [cleaned_ingredients] gives the same list, hence the same set,
    provided that the per-ingredient pipeline returns each of these tokens
    unchanged. *)
Theorem C6_idempotence_on_fixed_tokens (ingredients : list string) :
  (∀ t, t ∈ clean_ingredients ingredients →
        preprocess_ingredient t = Py.Str t) →
  clean_ingredients (clean_ingredients ingredients)
  = clean_ingredients ingredients.
Proof.
  intros Hfix. apply clean_ingredients_fixed; [ | | done].
  - apply clean_ingredients_ascending.
  - by intros [? _]%elem_of_clean_ingredients.
Qed.
End claim_C6.

(** C6, on tokens that the example tagger and lexicon leave unchanged. *)
Lemma C6_witness :
  clean_ingredients (tagger := Demo.tagger) (lexicon := Demo.lexicon)
    (clean_ingredients (tagger := Demo.tagger) (lexicon := Demo.lexicon)
       ["small lemon lemons or 6 to 7 pieces calamansi";
        "2 cups Soy Sauce (dark)"; "cauliflower rice"])
  = clean_ingredients (tagger := Demo.tagger) (lexicon := Demo.lexicon)
      ["small lemon lemons or 6 to 7 pieces calamansi";
       "2 cups Soy Sauce (dark)"; "cauliflower rice"].
Proof.
  refine (@C6_idempotence_on_fixed_tokens Demo.tagger Demo.lexicon
            ["small lemon lemons or 6 to 7 pieces calamansi";
             "2 cups Soy Sauce (dark)"; "cauliflower rice"] _).
  intros t Ht.
  assert (t ∈ ["cauliflower rice"; "lemon"; "toyo"]) as Ht' by exact Ht.
  clear Ht.
  repeat (apply elem_of_cons in Ht' as [->|Ht']; [vm_compute; reflexivity|]).
  by apply elem_of_nil in Ht'.
Defined.

(** ** C8: the linguistic filter *)

Section claim_C8.
Context {tagger : Tagger}.

(** C8. [lemmatize_valid_nouns] is the linguistic filter of the
    specification: the tokens of the tagger are read in order, the tag of a
    token whose text is an override key is forced to NOUN, the lemma of a
    token is retained iff the token is alphabetic, is not a stopword and is
    tagged NOUN or PROPN, and the retained lemmas are joined with single
    spaces; when no token is retained the result is the empty string. *)
Theorem C8_linguistic_filter (s : string) :
  lemmatize_valid_nouns s = Spec.LinguisticFilter s
  ∧ (∀ valid_lemmas token,
       lemmatize_step valid_lemmas token
       = if Spec.retained token then valid_lemmas ++ [lemma_ token]
         else valid_lemmas)
  ∧ (filter Spec.retained (nlp s) = [] → lemmatize_valid_nouns s = "").
Proof.
  split_and!.
  - apply lemmatize_valid_nouns_filter.
  - apply lemmatize_step_retained.
  - intros Hnone. by rewrite lemmatize_valid_nouns_filter, Hnone.
Qed.
End claim_C8.

(** "cauliflower" is tagged as an adjective by the example tagger and is
    retained all the same; the numeral is dropped. *)
Example lemmatize_override :
  lemmatize_valid_nouns (tagger := Demo.tagger) "2 small cauliflower heads"
  = "cauliflower head".
Proof. by vm_compute. Qed.

(** C8, on a string without a retained token. *)
Lemma C8_witness :
  lemmatize_valid_nouns (tagger := Demo.tagger) "12 small" = "".
Proof.
  apply (@C8_linguistic_filter Demo.tagger "12 small").
  vm_compute. reflexivity.
Defined.

(** ** C9: determinism *)

Section claim_C9.
Context {tagger : Tagger} {lexicon : Lexicon}.

Lemma elem_of_recipe_df recipes row :
  row ∈ recipe_df recipes →
  cleaned_ingredients row = clean_ingredients (row_ingredients row).
Proof.
  unfold recipe_df. by intros ([n i] & -> & _)%list_elem_of_fmap.
Qed.

(** C9. For a fixed tagger and lexicon the [cleaned_ingredients] of a
    recipe are a function of its raw ingredients alone: they do not depend
    on the iteration order of the set built by the aggregator, nor on the
    corpus the recipe is processed in or on its place there; processing a
    permuted corpus permutes the rows. *)
Theorem C9_determinism :
  (∀ iter1 iter2 ingredients,
     (∀ X, iter1 X ≡ₚ elements X) → (∀ X, iter2 X ≡ₚ elements X) →
     clean_ingredients_iter iter1 ingredients
     = clean_ingredients_iter iter2 ingredients)
  ∧ (∀ recipes1 recipes2 row1 row2,
       row1 ∈ recipe_df recipes1 → row2 ∈ recipe_df recipes2 →
       row_ingredients row1 = row_ingredients row2 →
       cleaned_ingredients row1 = cleaned_ingredients row2)
  ∧ (∀ recipes1 recipes2,
       recipes1 ≡ₚ recipes2 → recipe_df recipes1 ≡ₚ recipe_df recipes2).
Proof.
  split_and!.
  - intros iter1 iter2 ingredients H1 H2.
    by rewrite !clean_ingredients_iter_eq.
  - intros recipes1 recipes2 row1 row2 H1 H2 Heq.
    rewrite (elem_of_recipe_df recipes1 row1 H1).
    rewrite (elem_of_recipe_df recipes2 row2 H2). by rewrite Heq.
  - intros recipes1 recipes2 Hperm. unfold recipe_df, dropna.
    by rewrite Hperm.
Qed.
End claim_C9.

(** C9, with the set read in its order and in the reverse order. *)
Lemma C9_witness :
  clean_ingredients_iter (tagger := Demo.tagger) (lexicon := Demo.lexicon)
    elements ["3 kalamansi"; "adobo sauce"]
  = clean_ingredients_iter (tagger := Demo.tagger) (lexicon := Demo.lexicon)
      (λ X, reverse (elements X)) ["3 kalamansi"; "adobo sauce"].
Proof.
  refine (proj1 (@C9_determinism Demo.tagger Demo.lexicon) elements
            (λ X, reverse (elements X)) ["3 kalamansi"; "adobo sauce"] _ _).
  - intros X. reflexivity.
  - intros X. apply reverse_Permutation.
Defined.

(** ** C10: whitespace normalisation of the four stages *)

(** A thesaurus value that is empty, or a lemma that is a space, gives a
    blank result. *)
Lemma C10_counterexample :
  handle_word_synonym (lexicon := Demo.erasing) "water water" = " "
  ∧ lemmatize_valid_nouns (tagger := Demo.spacing) "x" = " "
  ∧ Py.blank " " = true ∧ " " ≠ ""
  ∧ handle_word_synonym (lexicon := Demo.erasing) "water salt" = " salt".
Proof. split_and!; by vm_compute. Qed.

Section claim_C10.
Context {tagger : Tagger} {lexicon : Lexicon}.

(** C10 (amended). [filter_stopwords] and [remove_duplicates] return a
    whitespace-normalised string on every input.  [handle_word_synonym]
    does when every thesaurus value it substitutes is a non-empty
    single-spaced string, and [lemmatize_valid_nouns] when every lemma it
    retains is one. *)
Theorem C10_stage_normalization (s : string) :
  whitespace_normalized (filter_stopwords s)
  ∧ whitespace_normalized (remove_duplicates s)
  ∧ ((∀ w v, w ∈ Py.split s → word_synonyms !! w = Some v →
             v ≠ "" ∧ single_spaced v) →
     whitespace_normalized (handle_word_synonym s))
  ∧ ((∀ t, t ∈ nlp s → Spec.retained t →
           lemma_ t ≠ "" ∧ single_spaced (lemma_ t)) →
     whitespace_normalized (lemmatize_valid_nouns s)).
Proof.
  split_and!.
  - apply filter_stopwords_normalized.
  - apply remove_duplicates_normalized.
  - apply handle_word_synonym_normalized.
  - apply lemmatize_valid_nouns_normalized.
Qed.
End claim_C10.

(** C10, with the example tagger and lexicon. *)
Lemma C10_witness :
  whitespace_normalized
    (handle_word_synonym (lexicon := Demo.lexicon) "3 kalamansi")
  ∧ whitespace_normalized
      (lemmatize_valid_nouns (tagger := Demo.tagger) "lemons").
Proof.
  destruct (@C10_stage_normalization Demo.tagger Demo.lexicon "3 kalamansi")
    as (_ & _ & Hword & _).
  destruct (@C10_stage_normalization Demo.tagger Demo.lexicon "lemons")
    as (_ & _ & _ & Hlemma).
  split.
  - apply Hword. intros w v Hw Hv.
    assert (w ∈ ["3"; "kalamansi"]) as Hw' by exact Hw. clear Hw.
    apply elem_of_cons in Hw' as [->|Hw'];
      [by vm_compute in Hv|].
    apply elem_of_cons in Hw' as [->|Hw']; [|by apply elem_of_nil in Hw'].
    assert (v = "calamansi") as -> by (vm_compute in Hv; congruence).
    split; [done|]. exists ["calamansi"]. split; [|done].
    by repeat constructor.
  - apply Hlemma. intros t Ht _.
    assert (t ∈ [Demo.token_of "lemons"]) as Ht' by exact Ht. clear Ht.
    apply list_elem_of_singleton in Ht' as ->.
    split; [done|]. exists ["lemon"]. split; [|done].
    by repeat constructor.
Defined.

(** * Further properties of the notebooks *)

(** ** The stages on words *)

Section stages_on_words.
Context {tagger : Tagger} {lexicon : Lexicon}.
Implicit Types (s w : string) (ws : list string).

Lemma filter_filter_and {A} (P Q : A → Prop)
    `{!∀ x, Decision (P x), !∀ x, Decision (Q x)} (l : list A) :
  filter P (filter Q l) = filter (λ x, P x ∧ Q x) l.
Proof.
  induction l as [|x l IH]; [done|].
  rewrite (filter_cons Q). destruct (decide (Q x)) as [HQ|HQ].
  - rewrite !filter_cons. destruct (decide (P x)) as [HP|HP].
    + rewrite decide_True by done. by rewrite IH.
    + rewrite decide_False by tauto. done.
  - rewrite filter_cons, decide_False by tauto. done.
Qed.

Lemma filter_id_Forall {A} (P : A → Prop) `{!∀ x, Decision (P x)} (l : list A) :
  Forall P l → filter P l = l.
Proof.
  induction 1 as [|x l Hx Hl IH]; [done|].
  by rewrite filter_cons, decide_True, IH.
Qed.

(** The list [unique] that the loop of [remove_duplicates] builds from the
    list of words [ws], started with an empty [seen]. *)
Local Abbreviation loop_unique ws :=
  (fold_left
     (λ '((seen, unique) : gset string * list string) ingredient,
        if bool_decide (ingredient ∉ seen)
        then ({[ingredient]} ∪ seen, unique ++ [ingredient])
        else (seen, unique))
     ws (∅, [])).2.

Lemma remove_duplicates_loop_filter ws (seen0 : gset string) unique0 :
  (fold_left
     (λ '((seen, unique) : gset string * list string) ingredient,
        if bool_decide (ingredient ∉ seen)
        then ({[ingredient]} ∪ seen, unique ++ [ingredient])
        else (seen, unique))
     ws (seen0, unique0)).2
  = unique0 ++ filter (λ w, w ∉ seen0) (loop_unique ws).
Proof.
  revert seen0 unique0. induction ws as [|w ws IH]; intros seen0 unique0.
  - simpl. by rewrite app_nil_r.
  - simpl. rewrite (bool_decide_eq_true_2 (w ∉ (∅ : gset string)))
      by set_solver.
    rewrite (IH ({[w]} ∪ ∅) [w]).
    case_bool_decide as Hw.
    + rewrite IH. simpl. rewrite filter_cons, decide_True by done.
      rewrite <-app_assoc. simpl. do 2 f_equal.
      rewrite filter_filter_and. apply list_filter_iff. set_solver.
    + rewrite IH. f_equal. simpl.
      rewrite filter_cons, decide_False by (intros Hn; by apply Hn).
      rewrite filter_filter_and. apply list_filter_iff. set_solver.
Qed.

Lemma loop_unique_cons w ws :
  loop_unique (w :: ws) = w :: filter (λ x, x ≠ w) (loop_unique ws).
Proof.
  simpl. rewrite (bool_decide_eq_true_2 (w ∉ (∅ : gset string)))
    by set_solver.
  rewrite remove_duplicates_loop_filter. simpl. f_equal.
  apply list_filter_iff. set_solver.
Qed.

Lemma remove_duplicates_loop_unique s :
  remove_duplicates s = Py.join " " (loop_unique (Py.split s)).
Proof.
  unfold remove_duplicates.
  by destruct (fold_left _ (Py.split s) (∅, [])).
Qed.

Lemma loop_unique_sublist ws : loop_unique ws `sublist_of` ws.
Proof.
  induction ws as [|w ws IH]; [done|].
  rewrite loop_unique_cons. apply sublist_skip.
  etrans; [apply sublist_filter|done].
Qed.

Lemma loop_unique_fixed ws : NoDup ws → loop_unique ws = ws.
Proof.
  induction 1 as [|w ws Hw Hws IH]; [done|].
  rewrite loop_unique_cons, IH. f_equal.
  apply filter_id_Forall, Forall_forall. set_solver.
Qed.

Lemma loop_unique_NoDup ws :
  NoDup (loop_unique ws) ∧ ∀ w, w ∈ loop_unique ws ↔ w ∈ ws.
Proof.
  destruct (remove_duplicates_loop ws []) as (u & Hu & Hnd & Hin);
    [constructor|].
  simpl in Hu. rewrite Hu. simpl. split; [done|].
  intros w. rewrite Hin. set_solver.
Qed.

Lemma Forall_sublist_words ws ws' :
  ws' `sublist_of` ws → Forall is_word ws → Forall is_word ws'.
Proof.
  intros Hsub Hws. apply Forall_forall. intros w Hw.
  rewrite Forall_forall in Hws. apply Hws. by eapply elem_of_sublist.
Qed.

(** X1. [remove_duplicates] keeps the first occurrence of each word, in the
    order of the input: the words of the result are a sublist of the words
    of the input without repetition and with the same elements, and a
    leading word is kept while its later copies are dropped. *)
Theorem remove_duplicates_first_occurrence s :
  (∃ unique,
     remove_duplicates s = Py.join " " unique
     ∧ Py.split (remove_duplicates s) = unique
     ∧ NoDup unique
     ∧ unique `sublist_of` Py.split s
     ∧ ∀ w, w ∈ unique ↔ w ∈ Py.split s)
  ∧ (∀ w ws,
       Forall is_word (w :: ws) →
       remove_duplicates (Py.join " " (w :: ws))
       = Py.join " "
           (w :: filter (λ x, x ≠ w)
                   (Py.split (remove_duplicates (Py.join " " ws))))).
Proof.
  split.
  - exists (loop_unique (Py.split s)).
    pose proof (loop_unique_sublist (Py.split s)) as Hsub.
    destruct (loop_unique_NoDup (Py.split s)) as [Hnd Hin].
    split_and!; [apply remove_duplicates_loop_unique| |done..].
    rewrite remove_duplicates_loop_unique. apply split_join.
    eapply Forall_sublist_words; [done|apply split_words].
  - intros w ws Hws.
    pose proof (Forall_inv_tail Hws) as Hws'.
    rewrite !remove_duplicates_loop_unique.
    rewrite (split_join (w :: ws)), (split_join ws) by done.
    rewrite loop_unique_cons, split_join; [done|].
    eapply Forall_sublist_words; [apply loop_unique_sublist|done].
Qed.

(** X2. [remove_duplicates] is idempotent. *)
Theorem remove_duplicates_idempotent s :
  remove_duplicates (remove_duplicates s) = remove_duplicates s.
Proof.
  destruct (remove_duplicates_first_occurrence s)
    as [(u & Hu & Hsplit & Hnd & _) _].
  rewrite (remove_duplicates_loop_unique (remove_duplicates s)), Hsplit.
  by rewrite loop_unique_fixed.
Qed.

(** X3. The words of [filter_stopwords s] are the words of [s] that are not
    culinary stopwords, in the same order; no stopword is left and the stage
    is idempotent. *)
Theorem filter_stopwords_words s :
  Py.split (filter_stopwords s)
  = filter (λ term, term ∉ stopwords) (Py.split s)
  ∧ (∀ w, w ∈ Py.split (filter_stopwords s) → w ∉ stopwords)
  ∧ filter_stopwords (filter_stopwords s) = filter_stopwords s.
Proof.
  assert (Py.split (filter_stopwords s)
          = filter (λ term, term ∉ stopwords) (Py.split s)) as Hsplit.
  { rewrite filter_stopwords_filter. apply split_join.
    eapply Forall_sublist_words; [apply sublist_filter|apply split_words]. }
  split_and!; [done| |].
  - intros w. rewrite Hsplit. by intros [? _]%list_elem_of_filter.
  - rewrite (filter_stopwords_filter (filter_stopwords s)), Hsplit.
    rewrite filter_filter_and, filter_stopwords_filter. f_equal.
    apply list_filter_iff. tauto.
Qed.

(** X4. A word without an entry in the word thesaurus is kept as it is:
    when no word of [s] has an entry, [handle_word_synonym s] is [s] with
    its whitespace normalised, and [s] itself when [s] is single-spaced. *)
Theorem handle_word_synonym_no_entry s :
  (∀ w, w ∈ Py.split s → word_synonyms !! w = None) →
  handle_word_synonym s = Py.join " " (Py.split s)
  ∧ (single_spaced s → handle_word_synonym s = s).
Proof.
  intros Hnone.
  assert (handle_word_synonym s = Py.join " " (Py.split s)) as Heq.
  { rewrite handle_word_synonym_map. f_equal.
    induction (Py.split s) as [|w ws IH]; [done|].
    rewrite fmap_cons. unfold Py.get at 1.
    rewrite Hnone by set_solver. f_equal. apply IH.
    intros w' Hw'. apply Hnone. set_solver. }
  split; [done|]. intros Hs. rewrite Heq. by apply single_spaced_iff.
Qed.

(** X5. The string handed to the phrase-level lookup is a sequence of
    distinct words separated by single spaces: a key of the phrase
    thesaurus with surrounding whitespace, a double space or a repeated
    word is never looked up. *)
Theorem phrase_key_shape raw :
  (∃ unique,
     unique_terms raw = Py.join " " unique
     ∧ NoDup unique ∧ Forall is_word unique)
  ∧ (∀ key, Py.strip key ≠ key ∨ Py.join " " (Py.split key) ≠ key
            ∨ ¬ NoDup (Py.split key) →
            unique_terms raw ≠ key).
Proof.
  unfold unique_terms.
  set (word_synonym := handle_word_synonym _).
  destruct (remove_duplicates_first_occurrence word_synonym)
    as [(u & Hu & Hsplit & Hnd & Hsub & _) _].
  assert (Forall is_word u) as Hwords
    by (eapply Forall_sublist_words; [done|apply split_words]).
  split; [by exists u|].
  intros key Hkey <-. destruct Hkey as [Hk|[Hk|Hk]].
  - destruct (remove_duplicates_normalized word_synonym) as [Hstrip _]. done.
  - apply Hk, single_spaced_iff. exists u. done.
  - apply Hk. by rewrite Hsplit.
Qed.
End stages_on_words.

(** X1, on three words. *)
Lemma remove_duplicates_first_occurrence_witness :
  remove_duplicates (Py.join " " ["lemon"; "juice"; "lemon"])
  = Py.join " "
      ("lemon" :: filter (λ x, x ≠ "lemon")
                    (Py.split (remove_duplicates
                                 (Py.join " " ["juice"; "lemon"])))).
Proof.
  refine (proj2 (remove_duplicates_first_occurrence "")
            "lemon" ["juice"; "lemon"] _).
  by repeat constructor.
Defined.

(** X4, on a string whose words have no entry. *)
Lemma handle_word_synonym_no_entry_witness :
  handle_word_synonym (lexicon := Demo.lexicon) "  soy   sauce "
  = Py.join " " (Py.split "  soy   sauce ")
  ∧ (single_spaced "  soy   sauce " →
     handle_word_synonym (lexicon := Demo.lexicon) "  soy   sauce "
     = "  soy   sauce ").
Proof.
  refine (@handle_word_synonym_no_entry Demo.lexicon "  soy   sauce " _).
  intros w Hw.
  assert (w ∈ ["soy"; "sauce"]) as Hw' by exact Hw. clear Hw.
  repeat (apply elem_of_cons in Hw' as [->|Hw']; [vm_compute; reflexivity|]).
  by apply elem_of_nil in Hw'.
Defined.

(** X5, for a key with a repeated word. *)
Lemma phrase_key_shape_witness :
  unique_terms (tagger := Demo.tagger) (lexicon := Demo.lexicon)
    "lemon lemons" ≠ "lemon lemon".
Proof.
  refine (proj2 (@phrase_key_shape Demo.tagger Demo.lexicon "lemon lemons")
            "lemon lemon" _).
  right. right. intros Hnd.
  assert (NoDup ["lemon"; "lemon"]) as Hnd' by exact Hnd.
  apply NoDup_cons in Hnd' as [Hin _]. apply Hin. left.
Defined.

(** ** The aggregator on whole recipes *)

Section aggregator_more.
Context {tagger : Tagger} {lexicon : Lexicon}.

Lemma unique_terms_no_noun raw :
  filter Spec.retained (nlp (formatted raw)) = [] → unique_terms raw = "".
Proof.
  intros Hnone. unfold unique_terms.
  by rewrite lemmatize_valid_nouns_filter, Hnone.
Qed.

(** X6. An ingredient line in which the tagger finds no noun to retain is
    looked up as the empty string: it contributes what the phrase thesaurus
    gives for the key [""], and nothing when there is no such key.  A recipe
    made of such lines only, or without any line, has no cleaned
    ingredient. *)
Theorem clean_ingredients_no_noun (ingredients : list string) :
  (∀ raw, raw ∈ ingredients →
          filter Spec.retained (nlp (formatted raw)) = []) →
  (∀ raw, raw ∈ ingredients →
          preprocess_ingredient raw
          = Py.get phrase_synonyms "" (Py.Str ""))
  ∧ (phrase_synonyms !! "" = None → clean_ingredients ingredients = []).
Proof.
  intros Hnone. split.
  - intros raw Hraw. unfold preprocess_ingredient, handle_phrase_synonym.
    by rewrite unique_terms_no_noun by auto.
  - intros Hkey. apply elem_of_nil_inv. intros x.
    rewrite elem_of_clean_ingredients. intros (Hx & raw & Hraw & Hin).
    unfold preprocess_ingredient, handle_phrase_synonym, Py.get in Hin.
    rewrite unique_terms_no_noun, Hkey in Hin by auto. simpl in Hin.
    by apply list_elem_of_singleton in Hin.
Qed.

(** X7. [clean_ingredients] depends on the set of the raw lines only, not
    on their order or repetition, and the cleaned ingredients of the lines
    of two lists together are those of either list. *)
Theorem clean_ingredients_set (a b : list string) :
  (∀ x, x ∈ clean_ingredients (a ++ b)
        ↔ x ∈ clean_ingredients a ∨ x ∈ clean_ingredients b)
  ∧ ((∀ raw, raw ∈ a ↔ raw ∈ b) → clean_ingredients a = clean_ingredients b).
Proof.
  split.
  - intros x. rewrite !elem_of_clean_ingredients.
    setoid_rewrite elem_of_app. naive_solver.
  - intros Hab. apply (Sorted_unique String.le).
    + apply ascending_Sorted, clean_ingredients_ascending.
    + apply ascending_Sorted, clean_ingredients_ascending.
    + apply NoDup_Permutation.
      * apply ascending_NoDup, clean_ingredients_ascending.
      * apply ascending_NoDup, clean_ingredients_ascending.
      * intros x. rewrite !elem_of_clean_ingredients.
        by setoid_rewrite Hab.
Qed.
End aggregator_more.

(** X6, on a line made of a quantity only. *)
Lemma clean_ingredients_no_noun_witness :
  clean_ingredients (tagger := Demo.tagger) (lexicon := Demo.lexicon)
    ["12"; "3 (optional)"] = [].
Proof.
  refine (proj2 (@clean_ingredients_no_noun Demo.tagger Demo.lexicon
                   ["12"; "3 (optional)"] _) _).
  - intros raw Hraw.
    repeat (apply elem_of_cons in Hraw as [->|Hraw]; [vm_compute; reflexivity|]).
    by apply elem_of_nil in Hraw.
  - vm_compute. reflexivity.
Defined.

(** X7, on a list and the same lines repeated in another order. *)
Lemma clean_ingredients_set_witness :
  clean_ingredients (tagger := Demo.tagger) (lexicon := Demo.lexicon)
    ["3 kalamansi"; "adobo sauce"]
  = clean_ingredients (tagger := Demo.tagger) (lexicon := Demo.lexicon)
      ["adobo sauce"; "3 kalamansi"; "adobo sauce"].
Proof.
  refine (proj2 (@clean_ingredients_set Demo.tagger Demo.lexicon
                   ["3 kalamansi"; "adobo sauce"]
                   ["adobo sauce"; "3 kalamansi"; "adobo sauce"]) _).
  intros raw. rewrite !elem_of_cons, !elem_of_nil. tauto.
Defined.

(** ** The text cleaners *)

Section cleaners_more.
Implicit Types (s t sep : string) (c : ascii).

Lemma lower_char_idempotent c :
  Py.lower_char (Py.lower_char c) = Py.lower_char c.
Proof. by destruct c as [[] [] [] [] [] [] [] []]. Qed.

Lemma isspace_lower_char c : Py.isspace (Py.lower_char c) = Py.isspace c.
Proof. by destruct c as [[] [] [] [] [] [] [] []]. Qed.

Lemma lower_idempotent s : Py.lower (Py.lower s) = Py.lower s.
Proof.
  induction s as [|c s IH]; [done|]. simpl.
  by rewrite lower_char_idempotent, IH.
Qed.

Lemma lower_app s t : Py.lower (s +:+ t) = Py.lower s +:+ Py.lower t.
Proof.
  induction s as [|c s IH]; [done|].
  rewrite str_app_cons. simpl. by rewrite IH, str_app_cons.
Qed.

Lemma lower_rev s : Py.lower (String.rev s) = String.rev (Py.lower s).
Proof.
  induction s as [|c s IH]; [done|]. simpl Py.lower.
  by rewrite !str_rev_cons, lower_app, IH.
Qed.

Lemma lower_lstrip s : Py.lower (Py.lstrip s) = Py.lstrip (Py.lower s).
Proof.
  induction s as [|c s IH]; [done|]. simpl.
  rewrite isspace_lower_char. by destruct (Py.isspace c).
Qed.

Lemma lower_strip s : Py.lower (Py.strip s) = Py.strip (Py.lower s).
Proof.
  unfold Py.strip, Py.rstrip.
  by rewrite lower_rev, lower_lstrip, lower_rev, lower_lstrip.
Qed.

Lemma lstrip_fixed t :
  (∀ c r, t = String c r → Py.isspace c = false) → Py.lstrip t = t.
Proof.
  destruct t as [|c r]; [done|]. intros Hfirst. simpl.
  by rewrite (Hfirst c r).
Qed.

Lemma strip_idempotent s : Py.strip (Py.strip s) = Py.strip s.
Proof.
  destruct (strip_trimmed s) as (_ & Hfirst & Hlast).
  set (t := Py.strip s) in *. unfold Py.strip, Py.rstrip.
  rewrite (lstrip_fixed t) by done.
  rewrite lstrip_fixed, str_rev_involutive; [done|].
  intros c r Hrev. apply (Hlast (String.rev r) c).
  by rewrite <-(str_rev_involutive t), Hrev, str_rev_cons.
Qed.

(** X8. What the text cleaners return is lower-cased and trimmed: applying
    [lower] or [strip] again changes nothing. *)
Theorem cleaners_lower_stripped s :
  Py.lower (Association.clean_ingredient s) = Association.clean_ingredient s
  ∧ Py.strip (Association.clean_ingredient s) = Association.clean_ingredient s
  ∧ Py.lower (formatted s) = formatted s
  ∧ Py.strip (formatted s) = formatted s.
Proof.
  unfold Association.clean_ingredient, formatted.
  rewrite !lower_strip, !lower_idempotent, !strip_idempotent. done.
Qed.

Lemma occurs_in_cons sep c s :
  occurs_in sep (String c s) →
  String.prefix sep (String c s) = true ∨ occurs_in sep s.
Proof.
  intros ([|x a] & b & Heq).
  - left. apply prefix_iff. by exists b.
  - right. rewrite str_app_cons in Heq. injection Heq as _ ->. by exists a, b.
Qed.

Lemma item0_split_prefix sep cur s :
  sep ≠ "" →
  ∃ p t, s = p +:+ t
         ∧ Py.item0 (Py.split_sep_go sep 0 cur s) = cur +:+ p
         ∧ ¬ occurs_in sep p
         ∧ (t = "" ∨ String.prefix sep t = true).
Proof.
  intros Hsep. revert cur. induction s as [|c s IH]; intros cur.
  - exists "", "". split_and!; [done|by rewrite str_app_nil_r| |by left].
    intros ([|??] & b & Heq); [|done]. by destruct sep.
  - rewrite split_sep_go_cons.
    destruct (String.prefix sep (String c s)) eqn:Hpre.
    + exists "", (String c s).
      split_and!; [done|by rewrite str_app_nil_r| |by right].
      intros ([|??] & b & Heq); [|done]. by destruct sep.
    + destruct (IH (cur +:+ String c ""))
        as (p & t & -> & Hitem & Hocc & Ht).
      exists (String c p), t.
      split_and!; [done|by rewrite Hitem, str_app_snoc_cons| |done].
      intros [Hp|Hp]%occurs_in_cons; [|done].
      apply prefix_iff in Hp as [t' Ht'].
      assert (String.prefix sep (String c (p +:+ t)) = true) as Hpre'.
      { apply prefix_iff. exists (t' +:+ t).
        by rewrite <-str_app_cons, Ht', str_app_assoc. }
      congruence.
Qed.

(** X9. [select_first_option] returns a prefix of its argument in which
    [" or "] does not occur; what it drops is empty or starts with
    [" or "]; the function is idempotent. *)
Theorem select_first_option_prefix s :
  (∃ t, s = Association.select_first_option s +:+ t
        ∧ (t = "" ∨ String.prefix " or " t = true))
  ∧ ¬ occurs_in " or " (Association.select_first_option s)
  ∧ Association.select_first_option (Association.select_first_option s)
    = Association.select_first_option s.
Proof.
  unfold Association.select_first_option, Py.split_sep.
  destruct (item0_split_prefix " or " "" s)
    as (p & t & Hs & Hitem & Hocc & Ht); [done|].
  rewrite str_app_nil_l in Hitem. rewrite Hitem.
  split_and!; [by exists t|done|].
  by rewrite item0_split_none.
Qed.

(** X10. On a string without an opening parenthesis the cleaners of the two
    notebooks agree; in general they do not. *)
Theorem cleaners_agree_without_parenthesis s :
  has_char "(" s = false → Association.clean_ingredient s = formatted s.
Proof.
  intros Hs. unfold Association.clean_ingredient, formatted.
  by rewrite remove_parentheses_none, no_parenthesis_none.
Qed.
End cleaners_more.

(** X10, on a line without parenthesis. *)
Lemma cleaners_agree_without_parenthesis_witness :
  Association.clean_ingredient "2 Lemons or Calamansi"
  = formatted "2 Lemons or Calamansi".
Proof.
  refine (cleaners_agree_without_parenthesis "2 Lemons or Calamansi" _).
  reflexivity.
Defined.

(** ** The two notebooks side by side *)

Section notebooks_agree.
Context {tagger : Tagger} {lexicon : Lexicon} {data : Association.Data}.

(** X11. The stages of the association notebook compute what the stages of
    the clustering notebook compute, when both read the same stopwords and
    the thesaurus of the one is the word thesaurus of the other. *)
Theorem association_stages_agree s :
  Association.stopwords = stopwords →
  Association.thesaurus = word_synonyms →
  Association.lemmatize_nouns s = lemmatize_valid_nouns s
  ∧ Association.filter_stopwords s = filter_stopwords s
  ∧ Association.standardize_at_word_level s = handle_word_synonym s
  ∧ Association.remove_duplicates s = remove_duplicates s.
Proof.
  intros Hstop Hthes.
  unfold Association.lemmatize_nouns, Association.filter_stopwords,
    Association.standardize_at_word_level, Association.remove_duplicates,
    lemmatize_valid_nouns, filter_stopwords, handle_word_synonym,
    remove_duplicates.
  rewrite Hstop, Hthes. done.
Qed.

Lemma elem_of_keep_nonempty f x v :
  v ∈ Association.keep_nonempty f x ↔ v ≠ "" ∧ ∃ i, i ∈ x ∧ v = f i.
Proof.
  unfold Association.keep_nonempty.
  rewrite list_elem_of_filter, truthy_nonempty, list_elem_of_fmap.
  naive_solver.
Qed.

Lemma length_keep_nonempty f x :
  length (Association.keep_nonempty f x) ≤ length x.
Proof.
  unfold Association.keep_nonempty.
  etrans; [apply length_filter|]. by rewrite length_fmap.
Qed.

(** X12. No column of the association notebook up to [standardized_phrase]
    holds an empty string, and no column has more entries than the one
    before: an ingredient whose stage result is empty is dropped for
    good. *)
Theorem association_columns (x : list string) :
  ("" ∉ Association.cleaned x) ∧ ("" ∉ Association.lemmatized x)
  ∧ ("" ∉ Association.filtered x) ∧ ("" ∉ Association.standardized_word x)
  ∧ ("" ∉ Association.unique x) ∧ ("" ∉ Association.standardized_phrase x)
  ∧ length (Association.standardized_phrase x) ≤ length (Association.unique x)
  ∧ length (Association.unique x) ≤ length (Association.standardized_word x)
  ∧ length (Association.standardized_word x) ≤ length (Association.filtered x)
  ∧ length (Association.filtered x) ≤ length (Association.lemmatized x)
  ∧ length (Association.lemmatized x) ≤ length (Association.cleaned x)
  ∧ length (Association.cleaned x) ≤ length x.
Proof.
  unfold Association.standardized_phrase, Association.unique,
    Association.standardized_word, Association.filtered,
    Association.lemmatized, Association.cleaned.
  split_and!; try apply length_keep_nonempty;
    by intros [? _]%elem_of_keep_nonempty.
Qed.
End notebooks_agree.

(** X11, with data files that agree. *)
Lemma association_stages_agree_witness :
  Association.lemmatize_nouns (tagger := Demo.tagger) "2 lemons"
  = lemmatize_valid_nouns (tagger := Demo.tagger) "2 lemons"
  ∧ Association.filter_stopwords (data := Demo.data) "2 lemons"
    = filter_stopwords (lexicon := Demo.lexicon) "2 lemons"
  ∧ Association.standardize_at_word_level (data := Demo.data) "2 lemons"
    = handle_word_synonym (lexicon := Demo.lexicon) "2 lemons"
  ∧ Association.remove_duplicates "2 lemons" = remove_duplicates "2 lemons".
Proof.
  refine (@association_stages_agree Demo.tagger Demo.lexicon Demo.data
            "2 lemons" _ _); reflexivity.
Defined.

(** ** The frequency table and the filters, continued *)

Section corpus_more.
Implicit Types (i : string) (entries : list (option string))
               (df : list Row).

(** X13. The frequency table has an entry exactly for the values that occur,
    no entry is 0, the counts of two series add up when the series are
    concatenated, and the table does not depend on the order of the
    entries. *)
Theorem value_counts_table entries entries' i :
  (is_Some (value_counts entries !! i) ↔ Some i ∈ entries)
  ∧ (∀ n, value_counts entries !! i = Some n → 0 < n ≤ length entries)
  ∧ default 0 (value_counts (entries ++ entries') !! i)
    = default 0 (value_counts entries !! i)
      + default 0 (value_counts entries' !! i)
  ∧ (entries ≡ₚ entries' → value_counts entries = value_counts entries').
Proof.
  assert (∀ l, default 0 (value_counts l !! i) = occurrences i l) as Hocc.
  { intros l. rewrite value_counts_lookup. by destruct (occurrences i l). }
  split_and!.
  - rewrite value_counts_lookup. unfold occurrences.
    destruct (filter _ entries) as [|e l] eqn:Hf; simpl.
    + split; [by intros [??]|]. intros Hin.
      assert (Some i ∈ filter (λ e, e = Some i) entries) as Hin'
        by (by apply list_elem_of_filter).
      rewrite Hf in Hin'. by apply elem_of_nil in Hin'.
    + split; [|by eauto]. intros _.
      assert (e ∈ filter (λ e, e = Some i) entries) as Hin
        by (rewrite Hf; left).
      by apply list_elem_of_filter in Hin as [-> ?].
  - intros n. rewrite value_counts_lookup.
    pose proof (length_filter (λ e, e = Some i) entries) as Hlen.
    unfold occurrences. destruct (length (filter _ entries)); [done|].
    intros [= <-]. lia.
  - by rewrite !Hocc, occurrences_app.
  - intros Hperm. apply map_eq. intros j.
    rewrite !value_counts_lookup. unfold occurrences. by rewrite Hperm.
Qed.

Context {config : Config}.

Lemma apply_cleaned_compose f g df :
  apply_cleaned g (apply_cleaned f df) = apply_cleaned (g ∘ f) df.
Proof. unfold apply_cleaned. by rewrite <-list_fmap_compose. Qed.

Lemma cleaned_apply_cleaned f df :
  cleaned_ingredients <$> apply_cleaned f df
  = f <$> (cleaned_ingredients <$> df).
Proof.
  induction df as [|r df IH]; [done|].
  unfold apply_cleaned in *. simpl. f_equal. apply IH.
Qed.

Lemma reduced_rare_filter df :
  reduced_rare df
  = apply_cleaned
      (filter (λ i, (i ∉ rare_ingredients df) ∧ (i ∉ ingredients_to_remove))) df.
Proof.
  unfold reduced_rare, reduced_common. rewrite apply_cleaned_compose.
  unfold apply_cleaned. apply list_fmap_ext. intros _ r _. f_equal. simpl.
  unfold remove_rare_ingredients, remove_common_ingredients.
  apply filter_filter_and.
Qed.

(** X14. The removal of common and rare ingredients keeps every recipe, its
    name, its raw ingredients and its place; it only deletes ingredients,
    never adds or reorders them.  The recipes the size filter keeps are
    among those of the loaded records, in the same order. *)
Theorem reduced_rare_shape df :
  length (reduced_rare df) = length df
  ∧ row_name <$> reduced_rare df = row_name <$> df
  ∧ row_ingredients <$> reduced_rare df = row_ingredients <$> df
  ∧ (∀ k row row',
       df !! k = Some row → reduced_rare df !! k = Some row' →
       cleaned_ingredients row' `sublist_of` cleaned_ingredients row)
  ∧ row_name <$> size_filter (reduced_rare df) `sublist_of` row_name <$> df.
Proof.
  assert (row_name <$> reduced_rare df = row_name <$> df) as Hnames.
  { rewrite reduced_rare_filter. unfold apply_cleaned.
    rewrite <-list_fmap_compose. by apply list_fmap_ext. }
  split_and!; [|done| | |].
  - rewrite reduced_rare_filter. unfold apply_cleaned. by rewrite length_fmap.
  - rewrite reduced_rare_filter. unfold apply_cleaned.
    rewrite <-list_fmap_compose. by apply list_fmap_ext.
  - intros k row row' Hk. rewrite reduced_rare_filter. unfold apply_cleaned.
    rewrite list_lookup_fmap, Hk. intros [= <-]. simpl. apply sublist_filter.
  - rewrite <-Hnames. apply fmap_sublist. unfold size_filter.
    apply sublist_filter.
Qed.

Lemma occurrences_row i (l : list string) :
  occurrences i (match l with [] => [None] | _ => Some <$> l end)
  = length (filter (λ j, j = i) l).
Proof.
  destruct l as [|j0 l0]; [done|]. set (l := j0 :: l0). clearbody l.
  induction l as [|j l IH]; [done|].
  rewrite fmap_cons, occurrences_cons, filter_cons, IH.
  destruct (decide (j = i)) as [->|Hne].
  - by rewrite decide_True.
  - by rewrite decide_False by congruence.
Qed.

Lemma occurrences_explode_filter (P : string → Prop)
    `{!∀ x, Decision (P x)} i (column : list (list string)) :
  occurrences i (explode (filter P <$> column))
  = if decide (P i) then occurrences i (explode column) else 0.
Proof.
  unfold explode. induction column as [|l column IH].
  - by destruct (decide (P i)).
  - rewrite fmap_cons. simpl. rewrite !occurrences_app, IH, !occurrences_row.
    assert (length (filter (λ j, j = i) (filter P l))
            = if decide (P i) then length (filter (λ j, j = i) l) else 0)
      as ->; [|by destruct (decide (P i))].
    rewrite filter_filter_and. destruct (decide (P i)) as [HP|HP].
    + f_equal. apply list_filter_iff. naive_solver.
    + rewrite (list_filter_iff _ (λ _, False)) by naive_solver.
      clear. by induction l.
Qed.

(** X15. An ingredient that survives the removal of common and rare
    ingredients keeps its count: it was removed from no recipe.  Counted
    again on the reduced frame, no ingredient is rare, so the removal is
    stable. *)
Theorem reduced_rare_stable df i :
  corpus_count (reduced_rare df) i
  = (if decide ((i ∉ rare_ingredients df) ∧ (i ∉ ingredients_to_remove))
     then corpus_count df i else 0)
  ∧ rare_ingredients (reduced_rare df) = ∅.
Proof.
  assert (∀ j, corpus_count (reduced_rare df) j
               = if decide ((j ∉ rare_ingredients df)
                            ∧ (j ∉ ingredients_to_remove))
                 then corpus_count df j else 0) as Hcount.
  { intros j. rewrite !corpus_count_occurrences, reduced_rare_filter.
    rewrite cleaned_apply_cleaned. apply occurrences_explode_filter. }
  split; [done|].
  apply set_eq. intros j. rewrite elem_of_rare_ingredients, Hcount.
  split; [|set_solver]. intros [Hpos Hle].
  destruct (decide _) as [[Hrare _]|]; [|lia].
  destruct Hrare. by apply elem_of_rare_ingredients.
Qed.

(** X16. With [MIN_FREQUENCY] at 0 no ingredient is rare, whatever the
    corpus; if moreover no ingredient is listed as common, the reduced frame
    is the frame itself. *)
Theorem rare_ingredients_threshold_zero df :
  MIN_FREQUENCY = 0 →
  rare_ingredients df = ∅
  ∧ reduced_rare df = reduced_common df
  ∧ (ingredients_to_remove = [] → reduced_rare df = df).
Proof.
  intros Hzero.
  assert (rare_ingredients df = ∅) as Hrare.
  { apply set_eq. intros j. rewrite elem_of_rare_ingredients, Hzero.
    split; [lia|set_solver]. }
  assert (∀ (P : string → Prop) `{!∀ x, Decision (P x)} (d : list Row),
            (∀ x, P x) → apply_cleaned (filter P) d = d) as Hid.
  { intros P ? d HP. unfold apply_cleaned.
    rewrite <-(list_fmap_id d) at 2. apply list_fmap_ext.
    intros _ [n r c] _. simpl. f_equal.
    apply filter_id_Forall, Forall_forall. auto. }
  split_and!; [done| |].
  - unfold reduced_rare, remove_rare_ingredients. rewrite Hrare.
    apply Hid. set_solver.
  - intros Hnone. rewrite reduced_rare_filter. apply Hid.
    intros x. rewrite Hrare, Hnone. set_solver.
Qed.

(** X17. When the bounds are inverted the size filter drops every recipe; in
    any case filtering twice is filtering once. *)
Theorem size_filter_bounds_inverted df :
  (MAX_INGREDIENT < MIN_INGREDIENT → size_filter df = [])
  ∧ size_filter (size_filter df) = size_filter df.
Proof.
  unfold size_filter. split.
  - intros Hinv. apply elem_of_nil_inv. intros r.
    rewrite list_elem_of_filter. lia.
  - rewrite filter_filter_and. apply list_filter_iff. tauto.
Qed.
End corpus_more.

(** X16, with a threshold of 0 and no common ingredient. *)
Lemma rare_ingredients_threshold_zero_witness :
  let config := {| ingredients_to_remove := []; MIN_FREQUENCY := 0;
                   MIN_INGREDIENT := 4; MAX_INGREDIENT := 9 |} in
  let df := [{| row_name := "a"; row_ingredients := [];
                cleaned_ingredients := ["suka"] |}] in
  rare_ingredients (config := config) df = ∅
  ∧ reduced_rare (config := config) df = reduced_common (config := config) df
  ∧ (@ingredients_to_remove config = [] → reduced_rare (config := config) df = df).
Proof.
  intros config df.
  refine (@rare_ingredients_threshold_zero config df _). reflexivity.
Defined.

(** X17, with the bounds 9 and 4 exchanged. *)
Lemma size_filter_bounds_inverted_witness :
  let config := {| ingredients_to_remove := []; MIN_FREQUENCY := 5;
                   MIN_INGREDIENT := 9; MAX_INGREDIENT := 4 |} in
  size_filter (config := config)
    [{| row_name := "a"; row_ingredients := [];
        cleaned_ingredients := replicate 5 "x" |}] = [].
Proof.
  intros config.
  refine (proj1 (@size_filter_bounds_inverted config _) _).
  simpl. lia.
Defined.

(** X14, at the fifth recipe of a corpus of six. *)
Lemma reduced_rare_shape_witness :
  let row n c := {| row_name := n; row_ingredients := [];
                    cleaned_ingredients := c |} in
  let df := [row "a" ["bagoong"; "kamias"]; row "b" ["bagoong"; "kamias"];
             row "c" ["bagoong"; "kamias"]; row "d" ["bagoong"; "kamias"];
             row "e" ["bagoong"; "kamias"; "salt"]; row "f" ["kamias"]] in
  ["kamias"] `sublist_of` ["bagoong"; "kamias"; "salt"].
Proof.
  intros row df.
  refine (proj1 (proj2 (proj2 (proj2
            (@reduced_rare_shape notebook_config df))))
            4 (row "e" ["bagoong"; "kamias"; "salt"]) (row "e" ["kamias"])
            _ _); reflexivity.
Defined.

(** X13, on two orders of the same entries. *)
Lemma value_counts_table_witness :
  value_counts [Some "suka"; None; Some "toyo"; Some "suka"]
  = value_counts [Some "toyo"; Some "suka"; Some "suka"; None].
Proof.
  refine (proj2 (proj2 (proj2 (value_counts_table _ _ "suka"))) _).
  apply (Permutation_cons_app [Some "toyo"; Some "suka"] [None]).
  apply (Permutation_cons_app [Some "toyo"; Some "suka"] []). simpl.
  apply perm_skip. done.
Defined.

(** ** Loading, listing and the texts to embed *)

Section listing.
Context {tagger : Tagger} {lexicon : Lexicon} {config : Config}.

Lemma length_dropna (recipes : list Recipe) :
  length (dropna recipes)
  + length (filter (λ r, ingredients r = None) recipes)
  = length recipes.
Proof.
  unfold dropna, omap. induction recipes as [|r recipes IH]; [done|].
  rewrite filter_cons. simpl in *.
  destruct (decide (ingredients r = None)) as [Hn|Hn].
  - rewrite Hn. simpl. lia.
  - destruct (ingredients r); [simpl; lia|done].
Qed.

Lemma elem_of_dropna (recipes : list Recipe) n i :
  (n, i) ∈ dropna recipes
  ↔ ∃ r, r ∈ recipes ∧ name r = n ∧ ingredients r = Some i.
Proof.
  unfold dropna. rewrite list_elem_of_omap. split.
  - intros (r & Hr & Heq). exists r. destruct (ingredients r); naive_solver.
  - intros (r & Hr & <- & Hi). exists r. by rewrite Hi.
Qed.

(** X18. When some record carries its ingredients, so that the frame has
    the column, [dropna] removes exactly the records whose ingredients are
    missing, and [drop_empty_ingredients] reports their number.  A record
    whose list of ingredients is present but empty is kept: it enters the
    frame with no cleaned ingredient, and only a size filter with a positive
    lower bound removes it. *)
Theorem dropna_keeps_empty_lists (recipes : list Recipe) :
  (∃ r, r ∈ recipes ∧ is_Some (ingredients r)) →
  (Association.drop_empty_ingredients recipes).1
  = length (filter (λ r, ingredients r = None) recipes)
  ∧ (∀ n i, (n, i) ∈ (Association.drop_empty_ingredients recipes).2
            ↔ ∃ r, r ∈ recipes ∧ name r = n ∧ ingredients r = Some i)
  ∧ (∀ r, r ∈ recipes → ingredients r = Some [] →
          {| row_name := name r; row_ingredients := [];
             cleaned_ingredients := [] |} ∈ recipe_df recipes)
  ∧ (∀ row, row ∈ reduced_df recipes → row_ingredients row = [] →
            MIN_INGREDIENT = 0).
Proof.
  intros _. unfold Association.drop_empty_ingredients. simpl. split_and!.
  - pose proof (length_dropna recipes). lia.
  - apply elem_of_dropna.
  - intros r Hr Hi. unfold recipe_df. apply list_elem_of_fmap.
    exists (name r, []). split; [done|]. apply elem_of_dropna. eauto.
  - intros row Hrow Hraw. unfold reduced_df, size_filter in Hrow.
    apply list_elem_of_filter in Hrow as [[Hmin _] Hrow].
    apply elem_of_apply_cleaned in Hrow as (r1 & Hr1 & _ & Hraw1 & Hc1).
    apply elem_of_apply_cleaned in Hr1 as (r0 & Hr0 & _ & Hraw0 & Hc0).
    apply elem_of_recipe_df in Hr0 as Hclean.
    rewrite <-Hraw0, <-Hraw1, Hraw in Hclean.
    assert (clean_ingredients [] = []) as Hnil.
    { apply elem_of_nil_inv. intros x.
      rewrite elem_of_clean_ingredients. intros (_ & i & Hi & _).
      by apply elem_of_nil in Hi. }
    rewrite Hc1, Hc0, Hclean, Hnil in Hmin.
    unfold remove_rare_ingredients, remove_common_ingredients in Hmin.
    simpl in Hmin. lia.
Qed.





(** X20. The text handed to the encoder for a recipe of the final frame is
    its cleaned ingredients joined by spaces in the order they are stored:
    sorting them again changes nothing. *)
Theorem ingredients_as_texts_stored (recipes : list Recipe) :
  ingredients_as_texts (reduced_df recipes)
  = (λ r, Py.join " " (cleaned_ingredients r)) <$> reduced_df recipes.
Proof.
  unfold ingredients_as_texts. apply list_fmap_ext. intros k r Hr. simpl.
  apply list_elem_of_lookup_2 in Hr. f_equal. apply sorted_fixed.
  unfold reduced_df, size_filter in Hr.
  apply list_elem_of_filter in Hr as [_ Hr].
  by destruct (contract_reduced_rare recipes r Hr) as [? _].
Qed.
End listing.

(** X18, on a record with an empty list of ingredients. *)
Lemma dropna_keeps_empty_lists_witness :
  {| row_name := "tubig"; row_ingredients := []; cleaned_ingredients := [] |}
  ∈ recipe_df (tagger := Demo.tagger) (lexicon := Demo.lexicon)
      [{| name := "asin"; ingredients := None |};
       {| name := "tubig"; ingredients := Some [] |}].
Proof.
  refine (proj1 (proj2 (proj2
            (@dropna_keeps_empty_lists Demo.tagger Demo.lexicon notebook_config
               [{| name := "asin"; ingredients := None |};
                {| name := "tubig"; ingredients := Some [] |}] _)))
            {| name := "tubig"; ingredients := Some [] |} _ _).
  - exists {| name := "tubig"; ingredients := Some [] |}.
    split; [right; left|]. by exists [].
  - right. left.
  - reflexivity.
Defined.


(** The listing of a column of two recipes; a column with an empty recipe
    under the two behaviours of the library. *)
Example saved_ingredients_missing :
  save_ingredients (H := {| missing_text := None |}) [["toyo"]; ["suka"]]
  = Some ("suka" +:+ String "010" "toyo")
  ∧ saved_ingredients (H := {| missing_text := Some "nan" |})
      [["suka"; "toyo"]; []; ["suka"]]
    = Some ["nan"; "suka"; "toyo"]
  ∧ saved_ingredients (H := {| missing_text := None |})
      [["suka"; "toyo"]; []; ["suka"]]
    = None.
Proof. by vm_compute. Qed.

(** ** Removing parenthesised text twice *)

Section parentheses_twice.
Implicit Types (s pre rest body post : string) (c : ascii).

Lemma str_length_app s t :
  String.length (s +:+ t) = String.length s + String.length t.
Proof.
  induction s as [|c s IH]; [done|]. rewrite str_app_cons. simpl. by rewrite IH.
Qed.

(** The first occurrence of a character. *)
Lemma has_char_split c s :
  has_char c s = true →
  ∃ pre post, s = pre +:+ String c post ∧ has_char c pre = false.
Proof.
  induction s as [|x s IH]; [done|]. simpl.
  destruct (Ascii.eqb_spec x c) as [->|Hne]; simpl.
  - intros _. by exists "", s.
  - intros (pre & post & -> & Hpre)%IH. exists (String x pre), post.
    split; [done|]. simpl. rewrite Hpre.
    by apply Ascii.eqb_neq in Hne as ->.
Qed.

(** Every pattern: deleting the matches never makes the string longer. *)
Lemma sub_go_length p k s :
  String.length (Re.sub_go p k s) ≤ String.length s.
Proof.
  revert k. induction s as [|x s IH]; intros k; [done|]. simpl.
  destruct k as [|k]; [|by etrans; [apply IH|lia]].
  destruct (Re.match_here p (String x s)) as [[|n]|]; simpl;
    try (by etrans; [apply IH|lia]); pose proof (IH 0); lia.
Qed.

(** X21. The removal of parenthesised text of [preprocess_ingredient] is
    idempotent and never lengthens the string. *)
Theorem no_parenthesis_idempotent s :
  no_parenthesis (no_parenthesis s) = no_parenthesis s
  ∧ String.length (no_parenthesis s) ≤ String.length s.
Proof.
  split; [|apply sub_go_length].
  remember (String.length s) as n eqn:Hn. revert s Hn.
  induction n as [n IH] using lt_wf_ind. intros s Hn.
  destruct (has_char "(" s) eqn:Hopen.
  2:{ rewrite (no_parenthesis_none s) by done. by apply no_parenthesis_none. }
  apply has_char_split in Hopen as (pre & rest & -> & Hpre).
  destruct (has_char ")" rest) eqn:Hclose.
  - apply has_char_split in Hclose as (body & post & -> & Hbody).
    change (pre +:+ String "(" (body +:+ String ")" post))
      with (pre +:+ "(" +:+ body +:+ ")" +:+ post).
    rewrite no_parenthesis_match by done.
    unfold no_parenthesis at 1. rewrite sub_star_prefix by done.
    f_equal. apply (IH (String.length post)); [|done].
    rewrite Hn, !str_length_app. simpl. rewrite !str_length_app. simpl. lia.
  - change (pre +:+ String "(" rest) with (pre +:+ "(" +:+ rest).
    rewrite (no_parenthesis_unclosed pre rest) by done.
    by apply no_parenthesis_unclosed.
Qed.

Lemma ends_with_space_dec pre :
  (∃ p, pre = p +:+ " ") ∨ (∀ p, pre ≠ p +:+ " ").
Proof.
  induction pre as [|x pre IH].
  - right. by intros [|??].
  - destruct pre as [|y pre].
    + destruct (Ascii.eqb_spec x " ") as [->|Hne].
      * left. by exists "".
      * right. intros [|a p] Heq.
        -- injection Heq as Heq. done.
        -- rewrite str_app_cons in Heq. injection Heq as _ Heq.
           by destruct p.
    + destruct IH as [[p ->]|Hno].
      * left. by exists (String x p).
      * right. intros [|z p] Heq; [done|].
        rewrite str_app_cons in Heq. injection Heq as _ Heq. by apply (Hno p).
Qed.

Lemma match_core_no_open s :
  has_char "(" s = false → match_core s = None.
Proof.
  destruct s as [|x s]; [done|]. intros [Hx _]%eqb_false_has_char.
  by apply core_other.
Qed.

(** The result of [remove_parentheses] is stable and does not start with a
    match of the pattern without its optional space. *)
Lemma remove_parentheses_stable s :
  Association.remove_parentheses (Association.remove_parentheses s)
  = Association.remove_parentheses s
  ∧ match_core (Association.remove_parentheses s) = None.
Proof.
  remember (String.length s) as n eqn:Hn. revert s Hn.
  induction n as [n IH] using lt_wf_ind. intros s Hn.
  destruct (has_char "(" s) eqn:Hopen.
  2:{ rewrite (remove_parentheses_none s) by done.
      split; [by apply remove_parentheses_none|by apply match_core_no_open]. }
  apply has_char_split in Hopen as (pre & rest & -> & Hpre).
  destruct (has_char ")" rest) eqn:Hclose.
  2:{ change (pre +:+ String "(" rest) with (pre +:+ "(" +:+ rest).
      rewrite (remove_parentheses_unclosed pre rest) by done.
      split; [by apply remove_parentheses_unclosed|].
      destruct pre as [|x pre].
      - by apply core_unclosed.
      - apply core_other. by apply eqb_false_has_char in Hpre as [? _]. }
  apply has_char_split in Hclose as (body & post & -> & Hbody).
  assert (String.length post < n) as Hlt.
  { rewrite Hn, !str_length_app. simpl. rewrite !str_length_app. simpl. lia. }
  destruct (IH _ Hlt post eq_refl) as [IHfix IHcore].
  destruct body as [|b body].
  - (* parentheses without content *)
    change (pre +:+ String "(" ("" +:+ String ")" post))
      with (pre +:+ "()" +:+ post).
    rewrite !remove_parentheses_empty by done. rewrite IHfix.
    split; [done|]. destruct pre as [|x pre].
    + apply core_empty.
    + apply core_other. by apply eqb_false_has_char in Hpre as [? _].
  - destruct (ends_with_space_dec pre) as [[p ->]|Hend].
    + (* the space before the parenthesis belongs to the match *)
      rewrite has_char_app in Hpre.
      apply orb_false_elim in Hpre as [Hp _].
      assert ((p +:+ " ") +:+ String "(" (String b body +:+ String ")" post)
              = p +:+ " (" +:+ String b body +:+ ")" +:+ post) as ->
        by (by rewrite str_app_assoc).
      rewrite remove_parentheses_space_match by done.
      unfold Association.remove_parentheses at 1 3.
      rewrite sub_plus_prefix; [|done|by left].
      fold (Association.remove_parentheses post).
      fold (Association.remove_parentheses
              (Association.remove_parentheses post)).
      rewrite IHfix. split; [done|].
      destruct p as [|x p]; [done|].
      apply core_other. by apply eqb_false_has_char in Hp as [? _].
    + change (pre +:+ String "(" (String b body +:+ String ")" post))
        with (pre +:+ "(" +:+ String b body +:+ ")" +:+ post).
      rewrite remove_parentheses_match by done.
      unfold Association.remove_parentheses at 1 3.
      rewrite sub_plus_prefix; [|done|by right].
      fold (Association.remove_parentheses post).
      fold (Association.remove_parentheses
              (Association.remove_parentheses post)).
      rewrite IHfix. split; [done|].
      destruct pre as [|x pre]; [done|].
      apply core_other. by apply eqb_false_has_char in Hpre as [? _].
Qed.

(** X22. [remove_parentheses] is idempotent and never lengthens the
    string. *)
Theorem remove_parentheses_idempotent s :
  Association.remove_parentheses (Association.remove_parentheses s)
  = Association.remove_parentheses s
  ∧ String.length (Association.remove_parentheses s) ≤ String.length s.
Proof.
  split; [apply remove_parentheses_stable|apply sub_go_length].
Qed.
End parentheses_twice.

(** ** Keys that are never used *)

(** X23. The word-level stages look up whole words only: two lexicons that
    agree on the words (non-empty strings without whitespace) give the same
    result, so a stopword or a thesaurus key that holds whitespace, or is
    empty, has no effect. *)
Theorem word_stages_use_word_keys (lexicon1 lexicon2 : Lexicon) (s : string) :
  (∀ w, is_word w →
        (w ∈ @stopwords lexicon1 ↔ w ∈ @stopwords lexicon2)
        ∧ @word_synonyms lexicon1 !! w = @word_synonyms lexicon2 !! w) →
  filter_stopwords (lexicon := lexicon1) s
  = filter_stopwords (lexicon := lexicon2) s
  ∧ handle_word_synonym (lexicon := lexicon1) s
    = handle_word_synonym (lexicon := lexicon2) s.
Proof.
  intros Hagree. pose proof (split_words s) as Hwords.
  rewrite !filter_stopwords_filter, !handle_word_synonym_map.
  induction Hwords as [|w ws Hw Hws [IH1 IH2]]; [done|].
  destruct (Hagree w Hw) as [Hstop Hsyn].
  split.
  - f_equal. rewrite !filter_cons.
    apply (f_equal Py.split) in IH1.
    rewrite !split_join in IH1.
    + rewrite IH1. destruct (decide (w ∉ stopwords)) as [H1|H1].
      * by rewrite decide_True by (by rewrite <-Hstop).
      * by rewrite decide_False by (by rewrite <-Hstop).
    + apply Forall_forall. intros x [_ Hx]%list_elem_of_filter.
      by eapply Forall_forall in Hws.
    + apply Forall_forall. intros x [_ Hx]%list_elem_of_filter.
      by eapply Forall_forall in Hws.
  - f_equal. rewrite !fmap_cons. unfold Py.get at 1 3. rewrite Hsyn. f_equal.
    clear IH1 IH2 Hw Hstop Hsyn.
    induction Hws as [|w' ws Hw' Hws IH]; [done|].
    rewrite !fmap_cons. unfold Py.get at 1 3.
    destruct (Hagree w' Hw') as [_ ->]. by rewrite IH.
Qed.

(** X23, with a key that holds a space. *)
Lemma word_stages_use_word_keys_witness :
  handle_word_synonym
    (lexicon := {| stopwords := []; word_synonyms := {[ "soy sauce" := "toyo" ]};
                   phrase_synonyms := ∅ |}) "soy sauce"
  = handle_word_synonym
      (lexicon := {| stopwords := []; word_synonyms := ∅;
                     phrase_synonyms := ∅ |}) "soy sauce".
Proof.
  refine (proj2 (word_stages_use_word_keys
                   {| stopwords := []; word_synonyms := {[ "soy sauce" := "toyo" ]};
                      phrase_synonyms := ∅ |}
                   {| stopwords := []; word_synonyms := ∅; phrase_synonyms := ∅ |}
                   "soy sauce" _)).
  intros w Hw. split; [done|]. simpl.
  rewrite lookup_empty. apply lookup_singleton_ne. intros <-. done.
Defined.
